(** * prova: characters, magic items and their assignment

    A shallow embedding of [src/models.py] (the two tables and their
    check constraints) and of [src/main.py] (the pydantic request models with
    their validators, and the route handlers), followed by the properties of
    the validation layer and of the assignment engine. *)

From Stdlib Require Import ZArith List String Bool Lia.
Import ListNotations.
Open Scope Z_scope.

(** ** Enumerations ([models.py]) *)

Inductive ClassePersonagem := GUERREIRO | MAGO | ARQUEIRO | LADINO | BARDO.

Inductive TipoItem := ARMA | ARMADURA | AMULETO.

Definition TipoItem_eqb (a b : TipoItem) : bool :=
  match a, b with
  | ARMA, ARMA | ARMADURA, ARMADURA | AMULETO, AMULETO => true
  | _, _ => false
  end.

(** ** The pydantic layer

    A request body reaches a model field in one of three shapes: the key is
    missing, the value cannot be read at the field's type, or it is a value of
    that type. *)

Inductive raw (A : Type) : Type :=
| Absent
| Malformed
| Given (a : A).
Arguments Absent {A}.
Arguments Malformed {A}.
Arguments Given {A} a.

(** The kinds of validation error.  [OutOfRange] is what [conint] raises,
    [TypeMismatch] stands for the two messages "Itens do tipo Armadura devem
    ter forca zero" / "Itens do tipo Arma devem ter defesa zero",
    [NoAttribute] for "Item deve ter pelo menos um atributo maior que zero"
    and [BudgetExceeded] for "A soma de forca e defesa nao pode exceder 10
    pontos". *)
Inductive ErrorKind :=
| Missing
| BadType
| OutOfRange
| TypeMismatch
| NoAttribute
| BudgetExceeded.

Inductive Field :=
| f_nome | f_tipo | f_forca | f_defesa
| f_nome_aventureiro | f_classe | f_level | f_forca_base | f_defesa_base
| f_item_id.

(** One entry of a [ValidationError]: the field and what went wrong. *)
Definition ErrorWrapper : Type := Field * ErrorKind.

Definition ErrorKind_eqb (a b : ErrorKind) : bool :=
  match a, b with
  | Missing, Missing | BadType, BadType | OutOfRange, OutOfRange
  | TypeMismatch, TypeMismatch | NoAttribute, NoAttribute
  | BudgetExceeded, BudgetExceeded => true
  | _, _ => false
  end.

(** Does the error list report an error of kind [k] (on any field)? *)
Definition reports (k : ErrorKind) (errs : list ErrorWrapper) : bool :=
  existsb (fun e => ErrorKind_eqb (snd e) k) errs.

Inductive res (A : Type) : Type :=
| Ok (a : A)
| Raise (e : ErrorKind).
Arguments Ok {A} a.
Arguments Raise {A} e.

Module Pydantic.
Section FieldValidation.
(** [V] is the dictionary [values] of the fields validated so far. *)
Context {V A : Type}.

(** A [@validator] method: it returns the value or raises. *)
Definition validator : Type := A -> V -> res A.

(** Validators of one field run in definition order; the first one
    that raises ends the chain. *)
Fixpoint apply_validators (vs : list validator) (v : A) (values : V) : res A :=
  match vs with
  | [] => Ok v
  | f :: rest =>
      match f v values with
      | Ok v' => apply_validators rest v' values
      | Raise e => Raise e
      end
  end.

(** One field of [validate_model]: a missing key is an error for a required
    field (no default) and otherwise yields the default WITHOUT running the
    validators (none of them is declared [always=True]); a supplied value
    goes through the type's own constraint and then the validators. *)
Definition validate_field (default : option A) (constraint : A -> res A)
    (vs : list validator) (r : raw A) (values : V) : res A :=
  match r with
  | Absent =>
      match default with
      | None => Raise Missing
      | Some d => Ok d
      end
  | Malformed => Raise BadType
  | Given a =>
      match constraint a with
      | Ok a' => apply_validators vs a' values
      | Raise e => Raise e
      end
  end.

(** A validated field enters [values]; a failed one leaves [values] alone
    and adds its error to the list. *)
Definition record_field (loc : Field) (set : A -> V -> V) (o : res A)
    (st : V * list ErrorWrapper) : V * list ErrorWrapper :=
  match o with
  | Ok a => (set a (fst st), snd st)
  | Raise e => (fst st, snd st ++ [(loc, e)])
  end.
End FieldValidation.

(** A field type with no constraint of its own ([str], an enum). *)
Definition unconstrained {A : Type} (a : A) : res A := Ok a.

(** [conint(ge=lo, le=hi)]. *)
Definition conint (ge : option Z) (le : option Z) (v : Z) : res Z :=
  let below := match ge with Some lo => v <? lo | None => false end in
  let above := match le with Some hi => hi <? v | None => false end in
  if below || above then Raise OutOfRange else Ok v.
End Pydantic.

(** *** [ItemMagicoBase] / [ItemMagicoCriar] *)

Module ItemMagicoBase.
(** The request body as received. *)
Record input := {
  in_nome : raw string;
  in_tipo : raw TipoItem;
  in_forca : raw Z;
  in_defesa : raw Z
}.

(** [values]: a field is present once it has been validated. *)
Record values := {
  v_nome : option string;
  v_tipo : option TipoItem;
  v_forca : option Z;
  v_defesa : option Z
}.

Definition no_values : values :=
  {| v_nome := None; v_tipo := None; v_forca := None; v_defesa := None |}.

Definition set_nome (x : string) (v : values) : values :=
  {| v_nome := Some x; v_tipo := v_tipo v; v_forca := v_forca v; v_defesa := v_defesa v |}.
Definition set_tipo (x : TipoItem) (v : values) : values :=
  {| v_nome := v_nome v; v_tipo := Some x; v_forca := v_forca v; v_defesa := v_defesa v |}.
Definition set_forca (x : Z) (v : values) : values :=
  {| v_nome := v_nome v; v_tipo := v_tipo v; v_forca := Some x; v_defesa := v_defesa v |}.
Definition set_defesa (x : Z) (v : values) : values :=
  {| v_nome := v_nome v; v_tipo := v_tipo v; v_forca := v_forca v; v_defesa := Some x |}.

(** [@validator("forca") validar_forca_arma] *)
Definition validar_forca_arma (v : Z) (vals : values) : res Z :=
  match v_tipo vals with
  | Some t => if TipoItem_eqb t ARMADURA && negb (v =? 0)
              then Raise TypeMismatch else Ok v
  | None => Ok v
  end.

(** [@validator("defesa") validar_defesa_armadura] *)
Definition validar_defesa_armadura (v : Z) (vals : values) : res Z :=
  match v_tipo vals with
  | Some t => if TipoItem_eqb t ARMA && negb (v =? 0)
              then Raise TypeMismatch else Ok v
  | None => Ok v
  end.

(** [@validator("defesa") validar_item_com_atributo] *)
Definition validar_item_com_atributo (v : Z) (vals : values) : res Z :=
  match v_forca vals with
  | Some f => if (f =? 0) && (v =? 0) then Raise NoAttribute else Ok v
  | None => Ok v
  end.

(** The validated model. *)
Record t := { nome : string; tipo : TipoItem; forca : Z; defesa : Z }.

(** [validate_model]: the fields in declaration order. *)
Definition validate_model (i : input) : values * list ErrorWrapper :=
  let st0 := (no_values, []) in
  let st1 := Pydantic.record_field f_nome set_nome
      (Pydantic.validate_field None Pydantic.unconstrained [] (in_nome i) (fst st0)) st0 in
  let st2 := Pydantic.record_field f_tipo set_tipo
      (Pydantic.validate_field None Pydantic.unconstrained [] (in_tipo i) (fst st1)) st1 in
  let st3 := Pydantic.record_field f_forca set_forca
      (Pydantic.validate_field (Some 0) (Pydantic.conint (Some 0) (Some 10))
         [validar_forca_arma] (in_forca i) (fst st2)) st2 in
  Pydantic.record_field f_defesa set_defesa
      (Pydantic.validate_field (Some 0) (Pydantic.conint (Some 0) (Some 10))
         [validar_defesa_armadura; validar_item_com_atributo] (in_defesa i) (fst st3)) st3.

(** Constructing the model: it exists only when no field reported an
    error; otherwise the [ValidationError] carries the whole list. *)
Definition parse (i : input) : t + list ErrorWrapper :=
  match validate_model i with
  | ({| v_nome := Some n; v_tipo := Some ty; v_forca := Some f; v_defesa := Some d |}, []) =>
      inl {| nome := n; tipo := ty; forca := f; defesa := d |}
  | (_, errs) => inr errs
  end.
End ItemMagicoBase.

(** *** [PersonagemBase] / [PersonagemCriar] *)

Module PersonagemBase.
Record input := {
  in_nome : raw string;
  in_nome_aventureiro : raw string;
  in_classe : raw ClassePersonagem;
  in_level : raw Z;
  in_forca_base : raw Z;
  in_defesa_base : raw Z
}.

Record values := {
  v_nome : option string;
  v_nome_aventureiro : option string;
  v_classe : option ClassePersonagem;
  v_level : option Z;
  v_forca_base : option Z;
  v_defesa_base : option Z
}.

Definition no_values : values :=
  {| v_nome := None; v_nome_aventureiro := None; v_classe := None;
     v_level := None; v_forca_base := None; v_defesa_base := None |}.

Definition set_nome (x : string) (v : values) : values :=
  {| v_nome := Some x; v_nome_aventureiro := v_nome_aventureiro v;
     v_classe := v_classe v; v_level := v_level v;
     v_forca_base := v_forca_base v; v_defesa_base := v_defesa_base v |}.
Definition set_nome_aventureiro (x : string) (v : values) : values :=
  {| v_nome := v_nome v; v_nome_aventureiro := Some x;
     v_classe := v_classe v; v_level := v_level v;
     v_forca_base := v_forca_base v; v_defesa_base := v_defesa_base v |}.
Definition set_classe (x : ClassePersonagem) (v : values) : values :=
  {| v_nome := v_nome v; v_nome_aventureiro := v_nome_aventureiro v;
     v_classe := Some x; v_level := v_level v;
     v_forca_base := v_forca_base v; v_defesa_base := v_defesa_base v |}.
Definition set_level (x : Z) (v : values) : values :=
  {| v_nome := v_nome v; v_nome_aventureiro := v_nome_aventureiro v;
     v_classe := v_classe v; v_level := Some x;
     v_forca_base := v_forca_base v; v_defesa_base := v_defesa_base v |}.
Definition set_forca_base (x : Z) (v : values) : values :=
  {| v_nome := v_nome v; v_nome_aventureiro := v_nome_aventureiro v;
     v_classe := v_classe v; v_level := v_level v;
     v_forca_base := Some x; v_defesa_base := v_defesa_base v |}.
Definition set_defesa_base (x : Z) (v : values) : values :=
  {| v_nome := v_nome v; v_nome_aventureiro := v_nome_aventureiro v;
     v_classe := v_classe v; v_level := v_level v;
     v_forca_base := v_forca_base v; v_defesa_base := Some x |}.

(** [@validator("defesa_base") validar_total_pontos] *)
Definition validar_total_pontos (v : Z) (vals : values) : res Z :=
  match v_forca_base vals with
  | Some fb => if 10 <? fb + v then Raise BudgetExceeded else Ok v
  | None => Ok v
  end.

Record t := {
  nome : string;
  nome_aventureiro : string;
  classe : ClassePersonagem;
  level : Z;
  forca_base : Z;
  defesa_base : Z
}.

Definition validate_model (i : input) : values * list ErrorWrapper :=
  let st0 := (no_values, []) in
  let st1 := Pydantic.record_field f_nome set_nome
      (Pydantic.validate_field None Pydantic.unconstrained [] (in_nome i) (fst st0)) st0 in
  let st2 := Pydantic.record_field f_nome_aventureiro set_nome_aventureiro
      (Pydantic.validate_field None Pydantic.unconstrained [] (in_nome_aventureiro i) (fst st1)) st1 in
  let st3 := Pydantic.record_field f_classe set_classe
      (Pydantic.validate_field None Pydantic.unconstrained [] (in_classe i) (fst st2)) st2 in
  let st4 := Pydantic.record_field f_level set_level
      (Pydantic.validate_field (Some 1) (Pydantic.conint (Some 1) None) [] (in_level i) (fst st3)) st3 in
  let st5 := Pydantic.record_field f_forca_base set_forca_base
      (Pydantic.validate_field None (Pydantic.conint (Some 0) (Some 10)) [] (in_forca_base i) (fst st4)) st4 in
  Pydantic.record_field f_defesa_base set_defesa_base
      (Pydantic.validate_field None (Pydantic.conint (Some 0) (Some 10))
         [validar_total_pontos] (in_defesa_base i) (fst st5)) st5.

Definition parse (i : input) : t + list ErrorWrapper :=
  match validate_model i with
  | ({| v_nome := Some n; v_nome_aventureiro := Some na; v_classe := Some c;
        v_level := Some lv; v_forca_base := Some fb; v_defesa_base := Some d |}, []) =>
      inl {| nome := n; nome_aventureiro := na; classe := c; level := lv;
             forca_base := fb; defesa_base := d |}
  | (_, errs) => inr errs
  end.
End PersonagemBase.


(** ** The tables ([models.py]) *)

Module Personagem.
Record t := {
  id : Z;
  nome : string;
  nome_aventureiro : string;
  classe : ClassePersonagem;
  level : Z;
  forca_base : Z;
  defesa_base : Z
}.

(** [check_pontos_totais], [check_forca_positiva], [check_defesa_positiva]. *)
Definition check_constraints (p : t) : bool :=
  (forca_base p + defesa_base p <=? 10) && (0 <=? forca_base p) && (0 <=? defesa_base p).

Definition with_nome_aventureiro (n : string) (p : t) : t :=
  {| id := id p; nome := nome p; nome_aventureiro := n; classe := classe p;
     level := level p; forca_base := forca_base p; defesa_base := defesa_base p |}.
End Personagem.

Module ItemMagico.
Record t := {
  id : Z;
  nome : string;
  tipo : TipoItem;
  forca : Z;
  defesa : Z;
  personagem_id : option Z
}.

Definition with_personagem_id (o : option Z) (i : t) : t :=
  {| id := id i; nome := nome i; tipo := tipo i; forca := forca i;
     defesa := defesa i; personagem_id := o |}.

(** [personagem_id == pid] as a query filter: NULL matches nothing. *)
Definition owned_by (pid : Z) (i : t) : bool :=
  match personagem_id i with
  | Some o => o =? pid
  | None => false
  end.

(** The five check constraints of the table.  The two on [tipo] compare the
    stored column with the literal "Arma" / "Armadura"; [label] is the text
    the store keeps for a member of the enumeration. *)
Definition check_constraints (label : TipoItem -> string) (i : t) : bool :=
  ((0 <=? forca i) && (forca i <=? 10))
  && ((0 <=? defesa i) && (defesa i <=? 10))
  && ((0 <? forca i) || (0 <? defesa i))
  && (negb (String.eqb (label (tipo i)) "Arma")
      || (String.eqb (label (tipo i)) "Arma" && (defesa i =? 0)))
  && (negb (String.eqb (label (tipo i)) "Armadura")
      || (String.eqb (label (tipo i)) "Armadura" && (forca i =? 0))).
End ItemMagico.

(** The persisted state: both tables, rows in storage order. *)
Record DB := {
  personagens : list Personagem.t;
  itens_magicos : list ItemMagico.t
}.

Definition db_vazio : DB := {| personagens := []; itens_magicos := [] |}.

(** [db.query(Personagem).filter(Personagem.id == pid).first()] *)
Definition query_personagem (pid : Z) (db : DB) : option Personagem.t :=
  find (fun p => Personagem.id p =? pid) (personagens db).

(** [db.query(ItemMagico).filter(ItemMagico.id == iid).first()] *)
Definition query_item (iid : Z) (db : DB) : option ItemMagico.t :=
  find (fun i => ItemMagico.id i =? iid) (itens_magicos db).

(** [db.query(ItemMagico).filter(personagem_id == pid, tipo == AMULETO).first()] *)
Definition query_amuleto (pid : Z) (db : DB) : option ItemMagico.t :=
  find (fun i => ItemMagico.owned_by pid i && TipoItem_eqb (ItemMagico.tipo i) AMULETO)
       (itens_magicos db).

(** The relationship [Personagem.itens_magicos]: the rows that point back. *)
Definition itens_de (pid : Z) (db : DB) : list ItemMagico.t :=
  filter (ItemMagico.owned_by pid) (itens_magicos db).

(** Flushing an attribute change of a loaded row: UPDATE ... WHERE id = key. *)
Definition update_item (key : Z) (f : ItemMagico.t -> ItemMagico.t) (db : DB) : DB :=
  {| personagens := personagens db;
     itens_magicos := map (fun i => if ItemMagico.id i =? key then f i else i) (itens_magicos db) |}.

Definition update_personagem (key : Z) (f : Personagem.t -> Personagem.t) (db : DB) : DB :=
  {| personagens := map (fun p => if Personagem.id p =? key then f p else p) (personagens db);
     itens_magicos := itens_magicos db |}.

(** ** Responses and failures *)

(** [PersonagemResposta]: the row, its derived totals and its items. *)
Record PersonagemResposta := {
  personagem : Personagem.t;
  forca_total : Z;
  defesa_total : Z;
  r_itens_magicos : list ItemMagico.t
}.

Definition soma (l : list Z) : Z := fold_right Z.add 0 l.

Definition resposta_personagem (p : Personagem.t) (db : DB) : PersonagemResposta :=
  let itens := itens_de (Personagem.id p) db in
  {| personagem := p;
     forca_total := Personagem.forca_base p + soma (map ItemMagico.forca itens);
     defesa_total := Personagem.defesa_base p + soma (map ItemMagico.defesa itens);
     r_itens_magicos := itens |}.

(** A response is serialised through the route's [response_model]; that
    step is not part of the handlers below and is left out. *)

Inductive Mensagem :=
| PersonagemRemovido (personagem_id : Z)
| ItemRemovido (item_id personagem_id : Z).

Inductive Body :=
| BPersonagem (p : PersonagemResposta)
| BItem (i : ItemMagico.t)
| BItens (l : list ItemMagico.t)
| BMensagem (m : Mensagem).

(** The [detail] of the [HTTPException]s raised by the handlers. *)
Inductive Detail :=
| PersonagemNaoEncontrado      (* "Personagem nao encontrado" *)
| ItemMagicoNaoEncontrado      (* "Item magico nao encontrado" *)
| ItemJaAtribuido              (* "Item ja atribuido a outro personagem" *)
| PersonagemJaPossuiAmuleto    (* "Personagem ja possui um amuleto. ..." *)
| ItemNaoNoInventario          (* "Item nao encontrado no inventario deste personagem" *)
| PersonagemNaoPossuiAmuleto.  (* "Personagem nao possui amuleto" *)

Inductive Failure :=
| HTTPException (status_code : Z) (detail : Detail)
| RequestValidationError (errs : list ErrorWrapper)   (* answered 422 *)
| AttributeError                                      (* [dados] is None; answered 500 *)
| IntegrityError                                      (* a check constraint; answered 500 *)
| OverflowError.                                      (* an integer too large to bind; answered 500 *)

Definition Response : Type := Body + Failure.

(** The vocabulary of the specification. *)
Definition NotFound_Character : Failure := HTTPException 404 PersonagemNaoEncontrado.
Definition AlreadyOwned : Failure := HTTPException 400 ItemJaAtribuido.
Definition AmuletConflict : Failure := HTTPException 400 PersonagemJaPossuiAmuleto.

(** [NotFound(Item)]: a 404 about the item, whichever of the two messages. *)
Definition is_NotFound_Item (f : Failure) : bool :=
  match f with
  | HTTPException 404 ItemMagicoNaoEncontrado => true
  | HTTPException 404 ItemNaoNoInventario => true
  | _ => false
  end.

(** ** Route handlers ([main.py])

    A handler takes the state to a response and a state; a raised exception
    leaves the state as it was (nothing was committed).

    The ids of a path or of a body are taken among the integers the store
    can hold (64-bit); a larger one cannot be bound to a statement (the
    driver raises), a case the lookups of the handlers below leave out. *)

(** An [Integer] column holds a signed 64-bit value: binding anything else
    to the INSERT raises before the statement runs. *)
Definition coluna_inteira (n : Z) : bool := (- 2 ^ 63 <=? n) && (n <? 2 ^ 63).

(** The primary key of a new row is assigned by the store: [novo_id].  Of the
    integers of a validated body only [level] has no upper bound. *)
Definition criar_personagem (novo_id : Z) (personagem : PersonagemBase.t) (db : DB)
  : Response * DB :=
  let db_personagem :=
    {| Personagem.id := novo_id;
       Personagem.nome := PersonagemBase.nome personagem;
       Personagem.nome_aventureiro := PersonagemBase.nome_aventureiro personagem;
       Personagem.classe := PersonagemBase.classe personagem;
       Personagem.level := PersonagemBase.level personagem;
       Personagem.forca_base := PersonagemBase.forca_base personagem;
       Personagem.defesa_base := PersonagemBase.defesa_base personagem |} in
  if negb (coluna_inteira (Personagem.level db_personagem)
           && coluna_inteira (Personagem.forca_base db_personagem)
           && coluna_inteira (Personagem.defesa_base db_personagem))
  then (inr OverflowError, db)
  else if Personagem.check_constraints db_personagem then
    let db' := {| personagens := personagens db ++ [db_personagem];
                  itens_magicos := itens_magicos db |} in
    (inl (BPersonagem (resposta_personagem db_personagem db')), db')
  else (inr IntegrityError, db).

Definition buscar_personagem (personagem_id : Z) (db : DB) : Response * DB :=
  match query_personagem personagem_id db with
  | None => (inr (HTTPException 404 PersonagemNaoEncontrado), db)
  | Some personagem => (inl (BPersonagem (resposta_personagem personagem db)), db)
  end.

Definition atualizar_nome_aventureiro (personagem_id : Z) (dados : option string) (db : DB)
  : Response * DB :=
  match query_personagem personagem_id db with
  | None => (inr (HTTPException 404 PersonagemNaoEncontrado), db)
  | Some personagem =>
      match dados with
      | None => (inr AttributeError, db)
      | Some nome_aventureiro =>
          let db' := update_personagem (Personagem.id personagem)
                       (Personagem.with_nome_aventureiro nome_aventureiro) db in
          (inl (BPersonagem
                  (resposta_personagem
                     (Personagem.with_nome_aventureiro nome_aventureiro personagem) db')),
           db')
      end
  end.

Definition remover_personagem (personagem_id : Z) (db : DB) : Response * DB :=
  match query_personagem personagem_id db with
  | None => (inr (HTTPException 404 PersonagemNaoEncontrado), db)
  | Some personagem =>
      (* for item in personagem.itens_magicos: item.personagem_id = None *)
      let itens := map (fun i => if ItemMagico.owned_by (Personagem.id personagem) i
                                 then ItemMagico.with_personagem_id None i else i)
                       (itens_magicos db) in
      (* db.delete(personagem) *)
      let restantes := filter (fun p => negb (Personagem.id p =? Personagem.id personagem))
                              (personagens db) in
      (inl (BMensagem (PersonagemRemovido personagem_id)),
       {| personagens := restantes; itens_magicos := itens |})
  end.

Definition criar_item_magico (label : TipoItem -> string) (novo_id : Z)
    (item : ItemMagicoBase.t) (db : DB) : Response * DB :=
  let db_item :=
    {| ItemMagico.id := novo_id;
       ItemMagico.nome := ItemMagicoBase.nome item;
       ItemMagico.tipo := ItemMagicoBase.tipo item;
       ItemMagico.forca := ItemMagicoBase.forca item;
       ItemMagico.defesa := ItemMagicoBase.defesa item;
       ItemMagico.personagem_id := None |} in
  if ItemMagico.check_constraints label db_item then
    (inl (BItem db_item),
     {| personagens := personagens db; itens_magicos := itens_magicos db ++ [db_item] |})
  else (inr IntegrityError, db).

Definition buscar_item_magico (item_id : Z) (db : DB) : Response * DB :=
  match query_item item_id db with
  | None => (inr (HTTPException 404 ItemMagicoNaoEncontrado), db)
  | Some item => (inl (BItem item), db)
  end.

Definition adicionar_item_personagem (personagem_id : Z) (dados : option Z) (db : DB)
  : Response * DB :=
  match query_personagem personagem_id db with
  | None => (inr (HTTPException 404 PersonagemNaoEncontrado), db)
  | Some personagem =>
      match dados with
      | None => (inr AttributeError, db)
      | Some item_id =>
          match query_item item_id db with
          | None => (inr (HTTPException 404 ItemMagicoNaoEncontrado), db)
          | Some item =>
              if match ItemMagico.personagem_id item with
                 | Some dono => negb (dono =? personagem_id)
                 | None => false
                 end
              then (inr (HTTPException 400 ItemJaAtribuido), db)
              else if TipoItem_eqb (ItemMagico.tipo item) AMULETO
                      && match query_amuleto personagem_id db with
                         | Some amuleto_existente =>
                             negb (ItemMagico.id amuleto_existente =? ItemMagico.id item)
                         | None => false
                         end
              then (inr (HTTPException 400 PersonagemJaPossuiAmuleto), db)
              else
                let db' := update_item (ItemMagico.id item)
                             (ItemMagico.with_personagem_id (Some (Personagem.id personagem)))
                             db in
                (inl (BPersonagem (resposta_personagem personagem db')), db')
          end
      end
  end.

Definition listar_itens_por_personagem (personagem_id : Z) (db : DB) : Response * DB :=
  match query_personagem personagem_id db with
  | None => (inr (HTTPException 404 PersonagemNaoEncontrado), db)
  | Some personagem => (inl (BItens (itens_de (Personagem.id personagem) db)), db)
  end.

Definition remover_item_do_personagem (personagem_id item_id : Z) (db : DB)
  : Response * DB :=
  match query_personagem personagem_id db with
  | None => (inr (HTTPException 404 PersonagemNaoEncontrado), db)
  | Some personagem =>
      match find (fun i => (ItemMagico.id i =? item_id)
                           && ItemMagico.owned_by personagem_id i)
                 (itens_magicos db) with
      | None => (inr (HTTPException 404 ItemNaoNoInventario), db)
      | Some item =>
          (inl (BMensagem (ItemRemovido item_id personagem_id)),
           update_item (ItemMagico.id item) (ItemMagico.with_personagem_id None) db)
      end
  end.

Definition buscar_amuleto_personagem (personagem_id : Z) (db : DB) : Response * DB :=
  match query_personagem personagem_id db with
  | None => (inr (HTTPException 404 PersonagemNaoEncontrado), db)
  | Some personagem =>
      match query_amuleto personagem_id db with
      | None => (inr (HTTPException 404 PersonagemNaoPossuiAmuleto), db)
      | Some amuleto => (inl (BItem amuleto), db)
      end
  end.

(** ** The routes: body validation, then the handler *)

(** The write requests of the API.  A body the route declares with the
    default [None] may be left out altogether ([None] here). *)
Inductive Request :=
| POST_personagens (body : PersonagemBase.input)
| PUT_nome_aventureiro (personagem_id : Z) (dados : option (raw string))
| DELETE_personagem (personagem_id : Z)
| POST_itens_magicos (body : ItemMagicoBase.input)
| POST_adicionar_item (personagem_id : Z) (dados : option (raw Z))
| DELETE_item (personagem_id item_id : Z).

(** A one-field body model ([AtualizarNomeAventureiro],
    [AdicionarItemPersonagem]): the field is required. *)
Definition parse_dados {A : Type} (loc : Field) (dados : option (raw A))
  : option A + list ErrorWrapper :=
  match dados with
  | None => inl None
  | Some Absent => inr [(loc, Missing)]
  | Some Malformed => inr [(loc, BadType)]
  | Some (Given a) => inl (Some a)
  end.

(** [novo_id] is the key the store would give to a row inserted now;
    [label] is as in [ItemMagico.check_constraints]. *)
Definition handle (label : TipoItem -> string) (novo_id : Z) (r : Request) (db : DB)
  : Response * DB :=
  match r with
  | POST_personagens body =>
      match PersonagemBase.parse body with
      | inl personagem => criar_personagem novo_id personagem db
      | inr errs => (inr (RequestValidationError errs), db)
      end
  | PUT_nome_aventureiro personagem_id dados =>
      match parse_dados f_nome_aventureiro dados with
      | inl d => atualizar_nome_aventureiro personagem_id d db
      | inr errs => (inr (RequestValidationError errs), db)
      end
  | DELETE_personagem personagem_id => remover_personagem personagem_id db
  | POST_itens_magicos body =>
      match ItemMagicoBase.parse body with
      | inl item => criar_item_magico label novo_id item db
      | inr errs => (inr (RequestValidationError errs), db)
      end
  | POST_adicionar_item personagem_id dados =>
      match parse_dados f_item_id dados with
      | inl d => adicionar_item_personagem personagem_id d db
      | inr errs => (inr (RequestValidationError errs), db)
      end
  | DELETE_item personagem_id item_id =>
      remover_item_do_personagem personagem_id item_id db
  end.

(** A key the store may assign: unused in the table the request inserts
    into (the primary key constraint). *)
Definition chave_livre (novo_id : Z) (r : Request) (db : DB) : Prop :=
  match r with
  | POST_personagens _ => ~ In novo_id (map Personagem.id (personagens db))
  | POST_itens_magicos _ => ~ In novo_id (map ItemMagico.id (itens_magicos db))
  | _ => True
  end.

(** The states the service can be in: from the empty tables, by requests. *)
Inductive reachable (label : TipoItem -> string) : DB -> Prop :=
| reachable_vazio : reachable label db_vazio
| reachable_handle (db : DB) (novo_id : Z) (r : Request) :
    reachable label db ->
    chave_livre novo_id r db ->
    reachable label (snd (handle label novo_id r db)).

(** ** Invariants of the tables *)

(** At most one Amulet per owner: two Amulet rows with the same owner are
    the same row. *)
Definition um_amuleto_por_dono (db : DB) : Prop :=
  forall a b dono,
    In a (itens_magicos db) -> In b (itens_magicos db) ->
    ItemMagico.tipo a = AMULETO -> ItemMagico.tipo b = AMULETO ->
    ItemMagico.personagem_id a = Some dono ->
    ItemMagico.personagem_id b = Some dono ->
    ItemMagico.id a = ItemMagico.id b.

(** The Amulet rows owned by [dono]. *)
Definition amuletos_de (dono : Z) (db : DB) : list ItemMagico.t :=
  filter (fun i => ItemMagico.owned_by dono i && TipoItem_eqb (ItemMagico.tipo i) AMULETO)
         (itens_magicos db).

Record wf (db : DB) : Prop := {
  wf_chaves_personagens : NoDup (map Personagem.id (personagens db));
  wf_chaves_itens : NoDup (map ItemMagico.id (itens_magicos db));
  wf_amuleto : um_amuleto_por_dono db
}.

(** The business rules of an item row (section 3 of the specification). *)
Definition item_valido (tipo : TipoItem) (forca defesa : Z) : Prop :=
  (tipo = ARMA -> defesa = 0) /\ (tipo = ARMADURA -> forca = 0)
  /\ (forca > 0 \/ defesa > 0).

(** The errors raised by the validators of the models, as opposed to the
    ones of the field types. *)
Definition business_error (k : ErrorKind) : Prop :=
  k = TypeMismatch \/ k = NoAttribute \/ k = BudgetExceeded.

(** "Exactly one of [P], [Q] holds". *)
Definition exactly_one (P Q : Prop) : Prop := (P /\ ~ Q) \/ (~ P /\ Q).

(** ** Sample requests and states *)

Module Amostra.
Open Scope string_scope.

Definition item (n : string) (t : TipoItem) (f d : Z) : ItemMagicoBase.input :=
  {| ItemMagicoBase.in_nome := Given n; ItemMagicoBase.in_tipo := Given t;
     ItemMagicoBase.in_forca := Given f; ItemMagicoBase.in_defesa := Given d |}.

Definition heroi (n na : string) (f d : Z) : PersonagemBase.input :=
  {| PersonagemBase.in_nome := Given n; PersonagemBase.in_nome_aventureiro := Given na;
     PersonagemBase.in_classe := Given MAGO; PersonagemBase.in_level := Given 1;
     PersonagemBase.in_forca_base := Given f; PersonagemBase.in_defesa_base := Given d |}.

(** An armor whose strength is outside the range of the field. *)
Definition armadura_forca_11 : ItemMagicoBase.input := item "Elmo" ARMADURA 11 0.

Definition espada : ItemMagicoBase.input := item "Espada" ARMA 5 0.

(** A weapon sent with [forca = 0] and no [defesa] key. *)
Definition arma_sem_defesa : ItemMagicoBase.input :=
  {| ItemMagicoBase.in_nome := Given "Adaga"; ItemMagicoBase.in_tipo := Given ARMA;
     ItemMagicoBase.in_forca := Given 0; ItemMagicoBase.in_defesa := Absent |}.

Definition heroi_sem_nomes : PersonagemBase.input := heroi "" "" 6 4.
Definition item_sem_nome : ItemMagicoBase.input := item "" ARMA 5 0.

(** The store persists the members of an [Enum] column by name. *)
Definition nomes (t : TipoItem) : string :=
  match t with ARMA => "ARMA" | ARMADURA => "ARMADURA" | AMULETO => "AMULETO" end.

(** Runs requests in order; each comes with the key the store assigns. *)
Fixpoint executar (rs : list (Z * Request)) (db : DB) : DB :=
  match rs with
  | [] => db
  | (novo_id, r) :: rest => executar rest (snd (handle nomes novo_id r db))
  end.

(** Every key of the run is one the store may assign at that point. *)
Fixpoint chaves_livres (rs : list (Z * Request)) (db : DB) : Prop :=
  match rs with
  | [] => True
  | (novo_id, r) :: rest =>
      chave_livre novo_id r db /\ chaves_livres rest (snd (handle nomes novo_id r db))
  end.

(** Two characters (keys 1 and 2) and two amulets (keys 1 and 2). *)
Definition dois_herois_dois_amuletos : DB :=
  executar [ (1, POST_personagens (heroi "Ana" "Zarabatana" 6 4));
             (2, POST_personagens (heroi "Rui" "Corvo" 3 3));
             (1, POST_itens_magicos (item "Olho" AMULETO 1 1));
             (2, POST_itens_magicos (item "Dente" AMULETO 2 0)) ] db_vazio.

(** ... then amulet 1 goes to character 1 ... *)
Definition ana_com_amuleto : DB :=
  executar [ (0, POST_adicionar_item 1 (Some (Given 1))) ] dois_herois_dois_amuletos.

(** ... and amulet 2 to character 2. *)
Definition cada_um_com_seu_amuleto : DB :=
  executar [ (0, POST_adicionar_item 2 (Some (Given 2))) ] ana_com_amuleto.

(** No character at all, one unowned item with key 1. *)
Definition so_um_item : DB :=
  executar [ (1, POST_itens_magicos espada) ] db_vazio.
End Amostra.

(** ** Further sample requests *)

Module Cenario.
Open Scope string_scope.

(** A well-formed character whose level is 2^63. *)
Definition heroi_nivel_enorme : PersonagemBase.input :=
  {| PersonagemBase.in_nome := Given "Ana";
     PersonagemBase.in_nome_aventureiro := Given "Zarabatana";
     PersonagemBase.in_classe := Given MAGO;
     PersonagemBase.in_level := Given (2 ^ 63);
     PersonagemBase.in_forca_base := Given 6;
     PersonagemBase.in_defesa_base := Given 4 |}.
End Cenario.

(** ** Derived attributes of a character ([models.py]) *)

(** The property [Personagem.forca_total]. *)
Definition Personagem_forca_total (p : Personagem.t) (db : DB) : Z :=
  Personagem.forca_base p + soma (map ItemMagico.forca (itens_de (Personagem.id p) db)).

(** The property [Personagem.defesa_total]. *)
Definition Personagem_defesa_total (p : Personagem.t) (db : DB) : Z :=
  Personagem.defesa_base p + soma (map ItemMagico.defesa (itens_de (Personagem.id p) db)).

(** The property [Personagem.amuleto]: [amuletos[0] if amuletos else None]. *)
Definition Personagem_amuleto (p : Personagem.t) (db : DB) : option ItemMagico.t :=
  match filter (fun item => TipoItem_eqb (ItemMagico.tipo item) AMULETO)
               (itens_de (Personagem.id p) db) with
  | [] => None
  | amuleto :: _ => Some amuleto
  end.

(** ** Further predicates on requests and states *)

(** What a request must look like for [ItemMagicoBase.parse] to build [m]. *)
Definition item_aceito (i : ItemMagicoBase.input) (m : ItemMagicoBase.t) : Prop :=
  ItemMagicoBase.in_nome i = Given (ItemMagicoBase.nome m)
  /\ ItemMagicoBase.in_tipo i = Given (ItemMagicoBase.tipo m)
  /\ (ItemMagicoBase.in_forca i = Absent /\ ItemMagicoBase.forca m = 0
      \/ ItemMagicoBase.in_forca i = Given (ItemMagicoBase.forca m)
         /\ 0 <= ItemMagicoBase.forca m <= 10
         /\ (ItemMagicoBase.tipo m = ARMADURA -> ItemMagicoBase.forca m = 0))
  /\ (ItemMagicoBase.in_defesa i = Absent /\ ItemMagicoBase.defesa m = 0
      \/ ItemMagicoBase.in_defesa i = Given (ItemMagicoBase.defesa m)
         /\ 0 <= ItemMagicoBase.defesa m <= 10
         /\ (ItemMagicoBase.tipo m = ARMA -> ItemMagicoBase.defesa m = 0)
         /\ (ItemMagicoBase.forca m > 0 \/ ItemMagicoBase.defesa m > 0)).

(** What a request must look like for [PersonagemBase.parse] to build [m]. *)
Definition personagem_aceito (i : PersonagemBase.input) (m : PersonagemBase.t) : Prop :=
  PersonagemBase.in_nome i = Given (PersonagemBase.nome m)
  /\ PersonagemBase.in_nome_aventureiro i = Given (PersonagemBase.nome_aventureiro m)
  /\ PersonagemBase.in_classe i = Given (PersonagemBase.classe m)
  /\ (PersonagemBase.in_level i = Absent /\ PersonagemBase.level m = 1
      \/ PersonagemBase.in_level i = Given (PersonagemBase.level m)
         /\ 1 <= PersonagemBase.level m)
  /\ PersonagemBase.in_forca_base i = Given (PersonagemBase.forca_base m)
  /\ PersonagemBase.in_defesa_base i = Given (PersonagemBase.defesa_base m)
  /\ 0 <= PersonagemBase.forca_base m <= 10
  /\ 0 <= PersonagemBase.defesa_base m <= 10
  /\ PersonagemBase.forca_base m + PersonagemBase.defesa_base m <= 10.

(** The same request, and the same model, with other names. *)
Definition personagem_com_nomes (n na : string) (i : PersonagemBase.input)
  : PersonagemBase.input :=
  {| PersonagemBase.in_nome := Given n;
     PersonagemBase.in_nome_aventureiro := Given na;
     PersonagemBase.in_classe := PersonagemBase.in_classe i;
     PersonagemBase.in_level := PersonagemBase.in_level i;
     PersonagemBase.in_forca_base := PersonagemBase.in_forca_base i;
     PersonagemBase.in_defesa_base := PersonagemBase.in_defesa_base i |}.

Definition modelo_com_nomes (n na : string) (m : PersonagemBase.t) : PersonagemBase.t :=
  {| PersonagemBase.nome := n;
     PersonagemBase.nome_aventureiro := na;
     PersonagemBase.classe := PersonagemBase.classe m;
     PersonagemBase.level := PersonagemBase.level m;
     PersonagemBase.forca_base := PersonagemBase.forca_base m;
     PersonagemBase.defesa_base := PersonagemBase.defesa_base m |}.

Definition item_com_nome (n : string) (i : ItemMagicoBase.input) : ItemMagicoBase.input :=
  {| ItemMagicoBase.in_nome := Given n;
     ItemMagicoBase.in_tipo := ItemMagicoBase.in_tipo i;
     ItemMagicoBase.in_forca := ItemMagicoBase.in_forca i;
     ItemMagicoBase.in_defesa := ItemMagicoBase.in_defesa i |}.

Definition modelo_item_com_nome (n : string) (m : ItemMagicoBase.t) : ItemMagicoBase.t :=
  {| ItemMagicoBase.nome := n;
     ItemMagicoBase.tipo := ItemMagicoBase.tipo m;
     ItemMagicoBase.forca := ItemMagicoBase.forca m;
     ItemMagicoBase.defesa := ItemMagicoBase.defesa m |}.

(** The character a write route is about, when its path names one. *)
Definition personagem_da_rota (r : Request) : option Z :=
  match r with
  | PUT_nome_aventureiro personagem_id _ => Some personagem_id
  | DELETE_personagem personagem_id => Some personagem_id
  | POST_adicionar_item personagem_id _ => Some personagem_id
  | DELETE_item personagem_id _ => Some personagem_id
  | POST_personagens _ | POST_itens_magicos _ => None
  end.

(** Whether the body of a request on a character passes its validation
    (a route without a body has nothing to validate). *)
Definition corpo_valido (r : Request) : bool :=
  match r with
  | PUT_nome_aventureiro _ dados =>
      match parse_dados f_nome_aventureiro dados with inl _ => true | inr _ => false end
  | POST_adicionar_item _ dados =>
      match parse_dados f_item_id dados with inl _ => true | inr _ => false end
  | _ => true
  end.

(** The columns of an item that no handler assigns after the insert. *)
Definition colunas_fixas (i : ItemMagico.t) : Z * string * TipoItem * Z * Z :=
  (ItemMagico.id i, ItemMagico.nome i, ItemMagico.tipo i,
   ItemMagico.forca i, ItemMagico.defesa i).

(** Every owner recorded on an item is a character of the table. *)
Definition donos_existem (db : DB) : Prop :=
  forall i dono,
    In i (itens_magicos db) -> ItemMagico.personagem_id i = Some dono ->
    In dono (map Personagem.id (personagens db)).

(** Every stored attribute lies in the range of its field. *)
Definition atributos_no_intervalo (db : DB) : Prop :=
  forall i, In i (itens_magicos db) ->
    0 <= ItemMagico.forca i <= 10 /\ 0 <= ItemMagico.defesa i <= 10.

(** * Properties *)

(** ** Validation layer *)

Ltac unfold_item :=
  unfold ItemMagicoBase.parse, ItemMagicoBase.validate_model,
    Pydantic.record_field, Pydantic.validate_field, Pydantic.apply_validators,
    Pydantic.conint, Pydantic.unconstrained,
    ItemMagicoBase.validar_forca_arma, ItemMagicoBase.validar_defesa_armadura,
    ItemMagicoBase.validar_item_com_atributo in *.

Ltac unfold_personagem :=
  unfold PersonagemBase.parse, PersonagemBase.validate_model,
    Pydantic.record_field, Pydantic.validate_field, Pydantic.apply_validators,
    Pydantic.conint, Pydantic.unconstrained,
    PersonagemBase.validar_total_pontos in *.

(** Splits on every integer test left in the goal or in a hypothesis. *)
Ltac split_tests :=
  repeat match goal with
    | |- context [?a <? ?b] => destruct (Z.ltb_spec a b); simpl
    | |- context [?a =? ?b] => destruct (Z.eqb_spec a b); simpl
    | H : context [?a <? ?b] |- _ => destruct (Z.ltb_spec a b); simpl in H
    | H : context [?a =? ?b] |- _ => destruct (Z.eqb_spec a b); simpl in H
    end.

Lemma TipoItem_eqb_eq (a b : TipoItem) : TipoItem_eqb a b = true <-> a = b.
Proof. destruct a, b; simpl; split; congruence. Qed.

Lemma reports_In (k : ErrorKind) (errs : list ErrorWrapper) :
  reports k errs = true <-> exists loc, In (loc, k) errs.
Proof.
  unfold reports. rewrite existsb_exists. split.
  - intros [[loc k'] [Hin Hk]]. exists loc.
    destruct k, k'; simpl in Hk; try discriminate; exact Hin.
  - intros [loc Hin]. exists (loc, k). split; [exact Hin|].
    destruct k; reflexivity.
Qed.

(** Errors only accumulate: an empty list at the end means every field was
    validated. *)
Lemma record_field_ok {V A : Type} (loc : Field) (set : A -> V -> V) (o : res A)
    (st : V * list ErrorWrapper) :
  snd (Pydantic.record_field loc set o st) = [] ->
  snd st = [] /\ exists a, o = Ok a.
Proof.
  destruct o as [a|e]; simpl; intros H.
  - split; [exact H | exists a; reflexivity].
  - apply app_eq_nil in H. destruct H as [_ H]. discriminate H.
Qed.

Lemma conint_Ok (lo hi : option Z) (v w : Z) :
  Pydantic.conint lo hi v = Ok w ->
  w = v
  /\ match lo with Some l => l <= v | None => True end
  /\ match hi with Some h => v <= h | None => True end.
Proof.
  unfold Pydantic.conint. destruct lo, hi; split_tests; simpl;
    intros Hc; inversion Hc; repeat split; lia.
Qed.

(** What [parse] returns is read off [validate_model]. *)
Lemma item_parse_inl (i : ItemMagicoBase.input) (m : ItemMagicoBase.t) :
  ItemMagicoBase.parse i = inl m ->
  snd (ItemMagicoBase.validate_model i) = []
  /\ ItemMagicoBase.v_nome (fst (ItemMagicoBase.validate_model i)) = Some (ItemMagicoBase.nome m)
  /\ ItemMagicoBase.v_tipo (fst (ItemMagicoBase.validate_model i)) = Some (ItemMagicoBase.tipo m)
  /\ ItemMagicoBase.v_forca (fst (ItemMagicoBase.validate_model i)) = Some (ItemMagicoBase.forca m)
  /\ ItemMagicoBase.v_defesa (fst (ItemMagicoBase.validate_model i)) = Some (ItemMagicoBase.defesa m).
Proof.
  unfold ItemMagicoBase.parse.
  destruct (ItemMagicoBase.validate_model i) as [[n ty f d] errs]; simpl.
  destruct n, ty, f, d, errs; intros H; inversion H; subst; simpl; auto.
Qed.

(** An accepted item, field by field: the required fields were supplied,
    and each attribute is either defaulted to 0 or a supplied value that
    passed its range and its validators. *)
Lemma item_parse_campos (i : ItemMagicoBase.input) (m : ItemMagicoBase.t) :
  ItemMagicoBase.parse i = inl m ->
  ItemMagicoBase.in_nome i = Given (ItemMagicoBase.nome m)
  /\ ItemMagicoBase.in_tipo i = Given (ItemMagicoBase.tipo m)
  /\ (ItemMagicoBase.in_forca i = Absent /\ ItemMagicoBase.forca m = 0
      \/ ItemMagicoBase.in_forca i = Given (ItemMagicoBase.forca m)
         /\ 0 <= ItemMagicoBase.forca m <= 10
         /\ (ItemMagicoBase.tipo m = ARMADURA -> ItemMagicoBase.forca m = 0))
  /\ (ItemMagicoBase.in_defesa i = Absent /\ ItemMagicoBase.defesa m = 0
      \/ ItemMagicoBase.in_defesa i = Given (ItemMagicoBase.defesa m)
         /\ 0 <= ItemMagicoBase.defesa m <= 10
         /\ (ItemMagicoBase.tipo m = ARMA -> ItemMagicoBase.defesa m = 0)
         /\ (ItemMagicoBase.forca m > 0 \/ ItemMagicoBase.defesa m > 0)).
Proof.
  intros Hp. apply item_parse_inl in Hp.
  destruct Hp as (He & Hn & Hty & Hf & Hd).
  destruct i as [rn rty rf rd]; simpl.
  unfold ItemMagicoBase.validate_model in *; cbv zeta in *; simpl in He, Hn, Hty, Hf, Hd.
  apply record_field_ok in He. destruct He as [He [d Ed]].
  apply record_field_ok in He. destruct He as [He [f Ef]].
  apply record_field_ok in He. destruct He as [He [ty Ety]].
  apply record_field_ok in He. destruct He as [_ [n En]].
  rewrite En in *. simpl in *.
  rewrite Ety in *. simpl in *.
  rewrite Ef in *. simpl in *.
  rewrite Ed in *. simpl in *.
  inversion Hn; inversion Hty; inversion Hf; inversion Hd; subst n ty f d.
  clear Hn Hty Hf Hd.
  destruct m as [n ty f d]; simpl in *.
  unfold Pydantic.validate_field, Pydantic.unconstrained in En, Ety.
  destruct rn; try discriminate. destruct rty; try discriminate.
  inversion En; inversion Ety; subst.
  assert (Hforca : rf = Absent /\ f = 0
                   \/ rf = Given f /\ 0 <= f <= 10 /\ (ty = ARMADURA -> f = 0)).
  { unfold Pydantic.validate_field in Ef. destruct rf as [| |v]; try discriminate.
    - left. inversion Ef. auto.
    - right. destruct (Pydantic.conint (Some 0) (Some 10) v) as [w|] eqn:Ec; try discriminate.
      apply conint_Ok in Ec. destruct Ec as (-> & Hlo & Hhi).
      simpl in Ef. unfold ItemMagicoBase.validar_forca_arma in Ef. simpl in Ef.
      destruct ty; simpl in Ef; split_tests; inversion Ef; subst;
        repeat split; (reflexivity || lia || congruence). }
  assert (Hf0 : 0 <= f) by (destruct Hforca as [[_ ->] | (_ & Hr & _)]; lia).
  repeat split; [exact Hforca |].
  unfold Pydantic.validate_field in Ed. destruct rd as [| |v]; try discriminate.
  - left. inversion Ed. auto.
  - right. destruct (Pydantic.conint (Some 0) (Some 10) v) as [w|] eqn:Ec; try discriminate.
    apply conint_Ok in Ec. destruct Ec as (-> & Hlo & Hhi).
    simpl in Ed. unfold ItemMagicoBase.validar_defesa_armadura,
      ItemMagicoBase.validar_item_com_atributo in Ed. simpl in Ed.
    destruct ty; simpl in Ed; split_tests; inversion Ed; subst;
      repeat split; (reflexivity || lia || congruence).
Qed.

Lemma personagem_parse_inl (i : PersonagemBase.input) (m : PersonagemBase.t) :
  PersonagemBase.parse i = inl m ->
  snd (PersonagemBase.validate_model i) = []
  /\ fst (PersonagemBase.validate_model i) =
     {| PersonagemBase.v_nome := Some (PersonagemBase.nome m);
        PersonagemBase.v_nome_aventureiro := Some (PersonagemBase.nome_aventureiro m);
        PersonagemBase.v_classe := Some (PersonagemBase.classe m);
        PersonagemBase.v_level := Some (PersonagemBase.level m);
        PersonagemBase.v_forca_base := Some (PersonagemBase.forca_base m);
        PersonagemBase.v_defesa_base := Some (PersonagemBase.defesa_base m) |}.
Proof.
  unfold PersonagemBase.parse.
  destruct (PersonagemBase.validate_model i) as [[n na c lv fb d] errs]; simpl.
  destruct n, na, c, lv, fb, d, errs; intros H; inversion H; subst; simpl; auto.
Qed.

(** An accepted character, field by field. *)
Lemma personagem_parse_campos (i : PersonagemBase.input) (m : PersonagemBase.t) :
  PersonagemBase.parse i = inl m ->
  PersonagemBase.in_nome i = Given (PersonagemBase.nome m)
  /\ PersonagemBase.in_nome_aventureiro i = Given (PersonagemBase.nome_aventureiro m)
  /\ PersonagemBase.in_classe i = Given (PersonagemBase.classe m)
  /\ PersonagemBase.in_forca_base i = Given (PersonagemBase.forca_base m)
  /\ PersonagemBase.in_defesa_base i = Given (PersonagemBase.defesa_base m)
  /\ 1 <= PersonagemBase.level m
  /\ 0 <= PersonagemBase.forca_base m <= 10
  /\ 0 <= PersonagemBase.defesa_base m <= 10
  /\ PersonagemBase.forca_base m + PersonagemBase.defesa_base m <= 10.
Proof.
  intros Hp. apply personagem_parse_inl in Hp. destruct Hp as [He Hv].
  destruct i as [rn rna rc rlv rfb rd]; simpl.
  unfold PersonagemBase.validate_model in *; cbv zeta in *; simpl in He, Hv.
  apply record_field_ok in He. destruct He as [He [d Ed]].
  apply record_field_ok in He. destruct He as [He [fb Efb]].
  apply record_field_ok in He. destruct He as [He [lv Elv]].
  apply record_field_ok in He. destruct He as [He [c Ec]].
  apply record_field_ok in He. destruct He as [He [na Ena]].
  apply record_field_ok in He. destruct He as [_ [n En]].
  rewrite En in *. simpl in *. rewrite Ena in *. simpl in *.
  rewrite Ec in *. simpl in *. rewrite Elv in *. simpl in *.
  rewrite Efb in *. simpl in *. rewrite Ed in *. simpl in *.
  destruct m as [n' na' c' lv' fb' d']; simpl in *.
  inversion Hv; subst n' na' c' lv' fb' d'. clear Hv.
  unfold Pydantic.validate_field, Pydantic.unconstrained in En, Ena, Ec.
  destruct rn; try discriminate. destruct rna; try discriminate.
  destruct rc; try discriminate.
  inversion En; inversion Ena; inversion Ec; subst.
  assert (Hlv : 1 <= lv).
  { unfold Pydantic.validate_field in Elv. destruct rlv as [| |v]; try discriminate.
    - inversion Elv. lia.
    - destruct (Pydantic.conint (Some 1) None v) as [w|] eqn:E; try discriminate.
      apply conint_Ok in E. destruct E as (-> & Hlo & _).
      simpl in Elv. inversion Elv. subst. exact Hlo. }
  unfold Pydantic.validate_field in Efb. destruct rfb as [| |v]; try discriminate.
  destruct (Pydantic.conint (Some 0) (Some 10) v) as [w|] eqn:E; try discriminate.
  apply conint_Ok in E. destruct E as (-> & Hlo & Hhi).
  simpl in Efb. inversion Efb. subst v.
  unfold Pydantic.validate_field in Ed. destruct rd as [| |v]; try discriminate.
  destruct (Pydantic.conint (Some 0) (Some 10) v) as [w|] eqn:E; try discriminate.
  apply conint_Ok in E. destruct E as (-> & Hlo' & Hhi').
  simpl in Ed. unfold PersonagemBase.validar_total_pontos in Ed. simpl in Ed.
  split_tests; inversion Ed; subst. repeat split; (reflexivity || lia).
Qed.

(** C3 (as amended).  An Armor whose supplied strength is not 0, and a
    Weapon whose supplied defense is not 0, are always rejected; the error
    on that field is TypeMismatch when the value lies in [0,10] and
    OutOfRange otherwise (the field's own range constraint runs first).  An
    Amulet never gets a TypeMismatch error, whatever its attributes. *)
Theorem item_type_consistency (i : ItemMagicoBase.input) :
  (forall v, ItemMagicoBase.in_tipo i = Given ARMADURA ->
             ItemMagicoBase.in_forca i = Given v -> v <> 0 ->
     exists errs, ItemMagicoBase.parse i = inr errs
       /\ In (f_forca, if (0 <=? v) && (v <=? 10) then TypeMismatch else OutOfRange) errs)
  /\ (forall v, ItemMagicoBase.in_tipo i = Given ARMA ->
                ItemMagicoBase.in_defesa i = Given v -> v <> 0 ->
     exists errs, ItemMagicoBase.parse i = inr errs
       /\ In (f_defesa, if (0 <=? v) && (v <=? 10) then TypeMismatch else OutOfRange) errs)
  /\ (ItemMagicoBase.in_tipo i = Given AMULETO ->
      reports TypeMismatch (snd (ItemMagicoBase.validate_model i)) = false).
Proof.
  destruct i as [n ty f d]; simpl. repeat split.
  - intros v -> -> Hv.
    destruct n, d; unfold_item; simpl;
      destruct (Z.leb_spec 0 v), (Z.leb_spec v 10); split_tests; try lia;
      eexists; (split; [reflexivity | simpl; auto]).
  - intros v -> -> Hv.
    destruct n, f; unfold_item; simpl;
      destruct (Z.leb_spec 0 v), (Z.leb_spec v 10); split_tests; try lia;
      eexists; (split; [reflexivity | simpl; auto 6]).
  - intros ->.
    destruct n, f, d; unfold_item; simpl; split_tests; reflexivity.
Qed.

Lemma item_type_consistency_witness :
  (exists errs, ItemMagicoBase.parse (Amostra.item "Elmo" ARMADURA 3 0) = inr errs
     /\ In (f_forca, TypeMismatch) errs)
  /\ (exists errs, ItemMagicoBase.parse (Amostra.item "Adaga" ARMA 0 12) = inr errs
     /\ In (f_defesa, OutOfRange) errs)
  /\ reports TypeMismatch
       (snd (ItemMagicoBase.validate_model (Amostra.item "Olho" AMULETO 4 9))) = false.
Proof.
  split; [| split].
  - apply (proj1 (item_type_consistency (Amostra.item "Elmo" ARMADURA 3 0)) 3);
      [reflexivity | reflexivity | lia].
  - apply (proj1 (proj2 (item_type_consistency (Amostra.item "Adaga" ARMA 0 12))) 12);
      [reflexivity | reflexivity | lia].
  - apply (proj2 (proj2 (item_type_consistency (Amostra.item "Olho" AMULETO 4 9))));
      reflexivity.
Defined.

(** C3 as stated fails: an Armor with strength 11 is rejected, but with
    the range error alone; no TypeMismatch is reported. *)
Lemma item_armadura_forca_11_OutOfRange :
  ItemMagicoBase.in_tipo Amostra.armadura_forca_11 = Given ARMADURA
  /\ ItemMagicoBase.in_forca Amostra.armadura_forca_11 = Given 11
  /\ ItemMagicoBase.parse Amostra.armadura_forca_11 = inr [(f_forca, OutOfRange)]
  /\ reports TypeMismatch [(f_forca, OutOfRange)] = false.
Proof. repeat split. Qed.

Lemma reports_record_field {V A : Type} (k : ErrorKind) (loc : Field)
    (set : A -> V -> V) (o : res A) (st : V * list ErrorWrapper) :
  reports k (snd (Pydantic.record_field loc set o st))
  = reports k (snd st) || match o with Ok _ => false | Raise e => ErrorKind_eqb e k end.
Proof.
  destruct o as [a|e]; simpl.
  - rewrite orb_false_r. reflexivity.
  - unfold reports. rewrite existsb_app. simpl. rewrite orb_false_r. reflexivity.
Qed.

Lemma conint_in_range (lo hi v : Z) :
  lo <= v <= hi -> Pydantic.conint (Some lo) (Some hi) v = Ok v.
Proof. unfold Pydantic.conint. intros Hr. split_tests; (reflexivity || lia). Qed.

(** A field without validators fails only as missing, malformed or out
    of range. *)
Lemma plain_field_error {V A : Type} (r : raw A) (vals : V) (k : ErrorKind) :
  business_error k ->
  match Pydantic.validate_field None Pydantic.unconstrained [] r vals with
  | Ok _ => false
  | Raise e => ErrorKind_eqb e k
  end = false.
Proof.
  intros Hk. destruct r; simpl; destruct Hk as [-> | [-> | ->]]; reflexivity.
Qed.

Lemma conint_field_error {V : Type} (default lo hi : option Z) (r : raw Z)
    (vals : V) (k : ErrorKind) :
  business_error k ->
  match Pydantic.validate_field default (Pydantic.conint lo hi) [] r vals with
  | Ok _ => false
  | Raise e => ErrorKind_eqb e k
  end = false.
Proof.
  intros Hk. destruct r as [| |v]; simpl.
  - destruct default; simpl; destruct Hk as [-> | [-> | ->]]; reflexivity.
  - destruct Hk as [-> | [-> | ->]]; reflexivity.
  - unfold Pydantic.conint.
    destruct (_ || _); simpl; destruct Hk as [-> | [-> | ->]]; reflexivity.
Qed.

Lemma validate_field_in_range {V : Type} (default : option Z)
    (vs : list (Pydantic.validator (V := V))) (lo hi v : Z) (vals : V) :
  lo <= v <= hi ->
  Pydantic.validate_field default (Pydantic.conint (Some lo) (Some hi)) vs (Given v) vals
  = Pydantic.apply_validators vs v vals.
Proof. intros Hr. simpl. rewrite conint_in_range by exact Hr. reflexivity. Qed.

(** C4.  With both base attributes in [0,10], validation of a character
    reports BudgetExceeded exactly when their sum exceeds 10; when the other
    fields are well formed and the level is at least 1, that is the only
    error, and the character is accepted otherwise. *)
Theorem personagem_budget (i : PersonagemBase.input) (fb d : Z) :
  PersonagemBase.in_forca_base i = Given fb ->
  PersonagemBase.in_defesa_base i = Given d ->
  0 <= fb <= 10 -> 0 <= d <= 10 ->
  (reports BudgetExceeded (snd (PersonagemBase.validate_model i)) = true <-> fb + d > 10)
  /\ (forall n na c lv,
        PersonagemBase.in_nome i = Given n ->
        PersonagemBase.in_nome_aventureiro i = Given na ->
        PersonagemBase.in_classe i = Given c ->
        PersonagemBase.in_level i = Given lv -> 1 <= lv ->
        PersonagemBase.parse i =
          if 10 <? fb + d then inr [(f_defesa_base, BudgetExceeded)]
          else inl {| PersonagemBase.nome := n; PersonagemBase.nome_aventureiro := na;
                      PersonagemBase.classe := c; PersonagemBase.level := lv;
                      PersonagemBase.forca_base := fb; PersonagemBase.defesa_base := d |}).
Proof.
  destruct i as [n na c lv fb' d']; simpl. intros -> -> Hfb Hd. split.
  - unfold PersonagemBase.validate_model; cbv zeta.
    rewrite !reports_record_field. simpl PersonagemBase.in_nome.
    simpl PersonagemBase.in_nome_aventureiro. simpl PersonagemBase.in_classe.
    simpl PersonagemBase.in_level. simpl PersonagemBase.in_forca_base.
    simpl PersonagemBase.in_defesa_base.
    rewrite !plain_field_error by (unfold business_error; auto).
    rewrite !conint_field_error by (unfold business_error; auto).
    rewrite !validate_field_in_range by assumption.
    simpl. unfold PersonagemBase.validar_total_pontos. simpl.
    split_tests; simpl; split; intros; (reflexivity || discriminate || lia).
  - intros n0 na0 c0 lv0 -> -> -> -> Hlv.
    unfold_personagem; simpl; split_tests; try lia; reflexivity.
Qed.

Lemma personagem_budget_witness :
  (exists m, PersonagemBase.parse (Amostra.heroi "Ana" "Zarabatana" 6 4) = inl m)
  /\ PersonagemBase.parse (Amostra.heroi "Ana" "Zarabatana" 7 4)
     = inr [(f_defesa_base, BudgetExceeded)].
Proof.
  split.
  - eexists.
    apply (proj2 (personagem_budget (Amostra.heroi "Ana" "Zarabatana" 6 4) 6 4
                    eq_refl eq_refl ltac:(lia) ltac:(lia))
             "Ana"%string "Zarabatana"%string MAGO 1 eq_refl eq_refl eq_refl eq_refl ltac:(lia)).
  - apply (proj2 (personagem_budget (Amostra.heroi "Ana" "Zarabatana" 7 4) 7 4
                    eq_refl eq_refl ltac:(lia) ltac:(lia))
             "Ana"%string "Zarabatana"%string MAGO 1 eq_refl eq_refl eq_refl eq_refl ltac:(lia)).
Defined.

(** C6.  An Armor sent with strength 0 and defense 0 is rejected with the
    zero-attribute error on [defesa] and no type-consistency error: both type
    validators return the value, and the zero-attribute validator, which comes
    after them in the chain of [defesa], raises. *)
Theorem item_armadura_zerada (n : raw string) (s : string) :
  let i := {| ItemMagicoBase.in_nome := n; ItemMagicoBase.in_tipo := Given ARMADURA;
              ItemMagicoBase.in_forca := Given 0; ItemMagicoBase.in_defesa := Given 0 |} in
  let vals := ItemMagicoBase.set_forca 0
                (ItemMagicoBase.set_tipo ARMADURA (ItemMagicoBase.set_nome s ItemMagicoBase.no_values)) in
  (exists errs, ItemMagicoBase.parse i = inr errs
     /\ In (f_defesa, NoAttribute) errs
     /\ reports TypeMismatch errs = false)
  /\ ItemMagicoBase.parse (Amostra.item s ARMADURA 0 0) = inr [(f_defesa, NoAttribute)]
  /\ ItemMagicoBase.validar_forca_arma 0
       (ItemMagicoBase.set_tipo ARMADURA (ItemMagicoBase.set_nome s ItemMagicoBase.no_values)) = Ok 0
  /\ ItemMagicoBase.validar_defesa_armadura 0 vals = Ok 0
  /\ ItemMagicoBase.validar_item_com_atributo 0 vals = Raise NoAttribute.
Proof.
  simpl. split; [| repeat split].
  destruct n; eexists; (split; [reflexivity | split; [simpl; auto | reflexivity]]).
Qed.

(** ** Tables as keyed lists *)

Section Keyed.
Context {A : Type} (key : A -> Z).

Lemma find_key_Some (l : list A) (k : Z) (x : A) :
  find (fun r => key r =? k) l = Some x -> In x l /\ key x = k.
Proof.
  intros H. apply find_some in H. destruct H as [Hin Hk].
  split; [exact Hin | apply Z.eqb_eq; exact Hk].
Qed.

Lemma find_key_NoDup (l : list A) (x : A) :
  NoDup (map key l) -> In x l -> find (fun r => key r =? key x) l = Some x.
Proof.
  induction l as [|y l IH]; simpl; intros Hnd Hin; [contradiction|].
  inversion Hnd as [|? ? Hnotin Hnd']; subst.
  destruct Hin as [-> | Hin].
  - rewrite Z.eqb_refl. reflexivity.
  - destruct (Z.eqb_spec (key y) (key x)) as [E|E].
    + exfalso. apply Hnotin. rewrite E. apply in_map. exact Hin.
    + apply IH; assumption.
Qed.

(** With unique keys, the row found by key is the only row with that key. *)
Lemma find_key_unique (l : list A) (k : Z) (x y : A) :
  NoDup (map key l) -> find (fun r => key r =? k) l = Some x ->
  In y l -> key y = k -> y = x.
Proof.
  intros Hnd Hf Hin Hk.
  pose proof (find_key_NoDup l y Hnd Hin) as Hy.
  rewrite Hk in Hy. congruence.
Qed.

Lemma find_key_map (f : A -> A) (l : list A) (k : Z) :
  (forall r, key (f r) = key r) ->
  find (fun r => key r =? k) (map f l) = option_map f (find (fun r => key r =? k) l).
Proof.
  intros Hf. induction l as [|y l IH]; simpl; [reflexivity|].
  rewrite Hf. destruct (key y =? k); [reflexivity | exact IH].
Qed.

Lemma map_key_map (f : A -> A) (l : list A) :
  (forall r, key (f r) = key r) -> map key (map f l) = map key l.
Proof.
  intros Hf. rewrite map_map. apply map_ext. exact Hf.
Qed.

(** An update that rewrites the rows of key [k] with what they already
    hold leaves the table as it is. *)
Lemma update_same (f : A -> A) (l : list A) (k : Z) :
  (forall r, In r l -> key r = k -> f r = r) ->
  map (fun r => if key r =? k then f r else r) l = l.
Proof.
  intros Hf. rewrite <- (map_id l) at 2. apply map_ext_in.
  intros r Hin. destruct (Z.eqb_spec (key r) k); [apply Hf; assumption | reflexivity].
Qed.

Lemma NoDup_map_filter (p : A -> bool) (l : list A) :
  NoDup (map key l) -> NoDup (map key (filter p l)).
Proof.
  induction l as [|y l IH]; simpl; intros Hnd; [constructor|].
  inversion Hnd as [|? ? Hnotin Hnd']; subst.
  destruct (p y); simpl; [constructor|]; auto.
  intros Hin. apply Hnotin. apply in_map_iff in Hin. destruct Hin as [z [Hz Hin]].
  apply filter_In in Hin. rewrite <- Hz. apply in_map. tauto.
Qed.

Lemma NoDup_map_snoc (l : list A) (x : A) :
  NoDup (map key l) -> ~ In (key x) (map key l) -> NoDup (map key (l ++ [x])).
Proof.
  intros Hnd Hx. rewrite map_app. simpl.
  apply NoDup_app; [exact Hnd | constructor; [intros [] | constructor] |].
  intros k Hk [<- | []]. contradiction.
Qed.
End Keyed.

Lemma owned_by_Some (pid : Z) (i : ItemMagico.t) :
  ItemMagico.owned_by pid i = true <-> ItemMagico.personagem_id i = Some pid.
Proof.
  unfold ItemMagico.owned_by. destruct (ItemMagico.personagem_id i) as [o|].
  - rewrite Z.eqb_eq. split; congruence.
  - split; discriminate.
Qed.

Lemma query_personagem_id (pid : Z) (db : DB) (p : Personagem.t) :
  query_personagem pid db = Some p -> Personagem.id p = pid.
Proof. intros H. apply (find_key_Some Personagem.id) in H. tauto. Qed.

Lemma query_item_id (iid : Z) (db : DB) (i : ItemMagico.t) :
  query_item iid db = Some i -> In i (itens_magicos db) /\ ItemMagico.id i = iid.
Proof. intros H. apply (find_key_Some ItemMagico.id) in H. exact H. Qed.

(** The Amulet query finds nothing exactly when the character owns none,
    and otherwise one of the character's Amulets. *)
Lemma query_amuleto_Some (pid : Z) (db : DB) (a : ItemMagico.t) :
  query_amuleto pid db = Some a ->
  In a (itens_magicos db) /\ ItemMagico.personagem_id a = Some pid
  /\ ItemMagico.tipo a = AMULETO.
Proof.
  intros H. apply find_some in H. destruct H as [Hin H].
  apply andb_true_iff in H. destruct H as [Ho Ht].
  apply owned_by_Some in Ho. apply TipoItem_eqb_eq in Ht. auto.
Qed.

Lemma query_amuleto_None (pid : Z) (db : DB) (a : ItemMagico.t) :
  query_amuleto pid db = None -> In a (itens_magicos db) ->
  ItemMagico.tipo a = AMULETO -> ItemMagico.personagem_id a <> Some pid.
Proof.
  intros H Hin Ht Ho. apply (find_none _ _ H) in Hin.
  apply owned_by_Some in Ho. apply TipoItem_eqb_eq in Ht.
  rewrite Ho, Ht in Hin. discriminate.
Qed.

(** ** The invariant is kept by every handler *)

(** Clearing owners, whatever the rows chosen, cannot create a second
    Amulet for anybody. *)
Lemma um_amuleto_map (g : ItemMagico.t -> ItemMagico.t) (db db' : DB) :
  (forall r, ItemMagico.id (g r) = ItemMagico.id r
             /\ ItemMagico.tipo (g r) = ItemMagico.tipo r
             /\ (ItemMagico.personagem_id (g r) = ItemMagico.personagem_id r
                 \/ ItemMagico.personagem_id (g r) = None)) ->
  itens_magicos db' = map g (itens_magicos db) ->
  um_amuleto_por_dono db -> um_amuleto_por_dono db'.
Proof.
  intros Hg E Hinv a b dono Ha Hb Hta Htb Hoa Hob.
  rewrite E in Ha, Hb.
  apply in_map_iff in Ha. destruct Ha as [a0 [<- Ha]].
  apply in_map_iff in Hb. destruct Hb as [b0 [<- Hb]].
  destruct (Hg a0) as (Eia & Eta & Eoa). destruct (Hg b0) as (Eib & Etb & Eob).
  rewrite Eia, Eib.
  destruct Eoa as [Eoa|Eoa]; [| congruence].
  destruct Eob as [Eob|Eob]; [| congruence].
  apply (Hinv a0 b0 dono); congruence.
Qed.

Lemma wf_criar_personagem (novo_id : Z) (p : PersonagemBase.t) (db : DB) :
  wf db -> ~ In novo_id (map Personagem.id (personagens db)) ->
  wf (snd (criar_personagem novo_id p db)).
Proof.
  intros [Hp Hi Ha] Hfresh. unfold criar_personagem.
  destruct (negb _); [split; assumption|].
  destruct (Personagem.check_constraints _); simpl; [| split; assumption].
  split; simpl; [| assumption | exact Ha].
  apply NoDup_map_snoc; assumption.
Qed.

Lemma wf_atualizar_nome_aventureiro (pid : Z) (dados : option string) (db : DB) :
  wf db -> wf (snd (atualizar_nome_aventureiro pid dados db)).
Proof.
  intros [Hp Hi Ha]. unfold atualizar_nome_aventureiro.
  destruct (query_personagem pid db) as [p|]; [| split; assumption].
  destruct dados as [n|]; [| split; assumption].
  split; simpl; [| assumption | exact Ha].
  rewrite map_map.
  erewrite map_ext; [exact Hp|].
  intros q. simpl. destruct (Personagem.id q =? Personagem.id p); reflexivity.
Qed.

Lemma wf_remover_personagem (pid : Z) (db : DB) :
  wf db -> wf (snd (remover_personagem pid db)).
Proof.
  intros [Hp Hi Ha]. unfold remover_personagem.
  destruct (query_personagem pid db) as [p|]; [| split; assumption].
  split; simpl.
  - apply NoDup_map_filter. exact Hp.
  - rewrite map_key_map; [exact Hi|].
    intros r. destruct (ItemMagico.owned_by _ r); reflexivity.
  - eapply um_amuleto_map; [| reflexivity | exact Ha].
    intros r. simpl. destruct (ItemMagico.owned_by _ r); simpl; auto.
Qed.

Lemma wf_criar_item_magico (label : TipoItem -> string) (novo_id : Z)
    (item : ItemMagicoBase.t) (db : DB) :
  wf db -> ~ In novo_id (map ItemMagico.id (itens_magicos db)) ->
  wf (snd (criar_item_magico label novo_id item db)).
Proof.
  intros [Hp Hi Ha] Hfresh. unfold criar_item_magico.
  destruct (ItemMagico.check_constraints _ _); simpl; [| split; assumption].
  split; simpl; [assumption | apply NoDup_map_snoc; assumption |].
  intros a b dono Hina Hinb Hta Htb Hoa Hob. simpl in Hina, Hinb.
  apply in_app_iff in Hina. apply in_app_iff in Hinb.
  destruct Hina as [Hina | [<- | []]]; [| discriminate Hoa].
  destruct Hinb as [Hinb | [<- | []]]; [| discriminate Hob].
  apply (Ha a b dono); assumption.
Qed.

Lemma wf_update_item_None (key : Z) (db : DB) :
  wf db -> wf (update_item key (ItemMagico.with_personagem_id None) db).
Proof.
  intros [Hp Hi Ha]. split; simpl.
  - exact Hp.
  - rewrite map_key_map; [exact Hi|].
    intros r. destruct (ItemMagico.id r =? key); reflexivity.
  - eapply um_amuleto_map; [| reflexivity | exact Ha].
    intros r. simpl. destruct (ItemMagico.id r =? key); simpl; auto.
Qed.

Lemma wf_remover_item_do_personagem (pid iid : Z) (db : DB) :
  wf db -> wf (snd (remover_item_do_personagem pid iid db)).
Proof.
  intros Hwf. unfold remover_item_do_personagem.
  destruct (query_personagem pid db) as [p|]; [| exact Hwf].
  destruct (find _ _) as [item|]; [| exact Hwf].
  simpl. apply wf_update_item_None. exact Hwf.
Qed.

(** Attaching: the guard on the existing Amulet is what keeps the
    invariant. *)
Lemma wf_adicionar_item_personagem (pid : Z) (dados : option Z) (db : DB) :
  wf db -> wf (snd (adicionar_item_personagem pid dados db)).
Proof.
  intros Hwf. pose proof Hwf as [Hp Hi Ha]. unfold adicionar_item_personagem.
  destruct (query_personagem pid db) as [p|] eqn:Eqp; [| exact Hwf].
  destruct dados as [iid|]; [| exact Hwf].
  destruct (query_item iid db) as [item|] eqn:Eqi; [| exact Hwf].
  destruct (match ItemMagico.personagem_id item with
            | Some dono => negb (dono =? pid) | None => false end); [exact Hwf|].
  destruct (TipoItem_eqb (ItemMagico.tipo item) AMULETO && _) eqn:Eguard; [exact Hwf|].
  apply query_personagem_id in Eqp. rewrite Eqp.
  pose proof (query_item_id _ _ _ Eqi) as [Hin_item Hid_item].
  simpl. split; simpl.
  - exact Hp.
  - rewrite map_key_map; [exact Hi|].
    intros r. destruct (ItemMagico.id r =? ItemMagico.id item); reflexivity.
  - intros a b dono Hina Hinb Hta Htb Hoa Hob. simpl in Hina, Hinb.
    apply in_map_iff in Hina. destruct Hina as [a0 [<- Hina]].
    apply in_map_iff in Hinb. destruct Hinb as [b0 [<- Hinb]].
    (* a row that changed is the attached item itself *)
    assert (Hrow : forall r, In r (itens_magicos db) ->
              ItemMagico.id r = ItemMagico.id item -> r = item).
    { intros r Hr Er. apply (find_key_unique ItemMagico.id _ iid _ _ Hi Eqi Hr).
      congruence. }
    (* an Amulet row owned by [pid] before the update is the item itself *)
    assert (Hown : forall r, In r (itens_magicos db) ->
              ItemMagico.tipo item = AMULETO ->
              ItemMagico.tipo r = AMULETO ->
              ItemMagico.personagem_id r = Some pid ->
              ItemMagico.id r = ItemMagico.id item).
    { intros r Hr Hti Htr Hor.
      apply TipoItem_eqb_eq in Hti. rewrite Hti in Eguard. simpl in Eguard.
      destruct (query_amuleto pid db) as [e|] eqn:Eqa.
      - apply negb_false_iff in Eguard. apply Z.eqb_eq in Eguard.
        apply query_amuleto_Some in Eqa. destruct Eqa as (He & Hoe & Hte).
        rewrite <- Eguard. apply (Ha r e pid); assumption.
      - exfalso. exact (query_amuleto_None _ _ _ Eqa Hr Htr Hor). }
    destruct (Z.eqb_spec (ItemMagico.id a0) (ItemMagico.id item)) as [Ea|Ea];
    destruct (Z.eqb_spec (ItemMagico.id b0) (ItemMagico.id item)) as [Eb|Eb];
      simpl in *.
    + congruence.
    + rewrite (Hrow a0 Hina Ea) in *. inversion Hoa; subst dono.
      symmetry. apply Hown; assumption.
    + rewrite (Hrow b0 Hinb Eb) in *. inversion Hob; subst dono.
      apply Hown; assumption.
    + apply (Ha a0 b0 dono); assumption.
Qed.

Lemma wf_handle (label : TipoItem -> string) (novo_id : Z) (r : Request) (db : DB) :
  wf db -> chave_livre novo_id r db -> wf (snd (handle label novo_id r db)).
Proof.
  intros Hwf Hk. destruct r as [body|pid dados| pid | body | pid dados | pid iid]; simpl in *.
  - destruct (PersonagemBase.parse body); [apply wf_criar_personagem; assumption | exact Hwf].
  - destruct (parse_dados _ dados); [apply wf_atualizar_nome_aventureiro | ]; exact Hwf.
  - apply wf_remover_personagem. exact Hwf.
  - destruct (ItemMagicoBase.parse body); [apply wf_criar_item_magico; assumption | exact Hwf].
  - destruct (parse_dados _ dados); [apply wf_adicionar_item_personagem | ]; exact Hwf.
  - apply wf_remover_item_do_personagem. exact Hwf.
Qed.

Lemma wf_vazio : wf db_vazio.
Proof.
  split; simpl; [constructor | constructor |].
  intros a b dono [].
Qed.

Lemma reachable_wf (label : TipoItem -> string) (db : DB) :
  reachable label db -> wf db.
Proof.
  induction 1 as [| db novo_id r _ IH Hk]; [exact wf_vazio | apply wf_handle; assumption].
Qed.

(** With unique keys, "two Amulets of one owner have the same key" reads
    as a count. *)
Lemma wf_amuletos_de (db : DB) (dono : Z) :
  wf db -> (List.length (amuletos_de dono db) <= 1)%nat.
Proof.
  intros [_ Hi Ha]. unfold amuletos_de.
  assert (Hnd : NoDup (map ItemMagico.id
            (filter (fun i => ItemMagico.owned_by dono i
                              && TipoItem_eqb (ItemMagico.tipo i) AMULETO)
                    (itens_magicos db))))
    by (apply NoDup_map_filter; exact Hi).
  assert (Hall : forall x, In x (filter (fun i => ItemMagico.owned_by dono i
                              && TipoItem_eqb (ItemMagico.tipo i) AMULETO)
                    (itens_magicos db)) ->
           In x (itens_magicos db) /\ ItemMagico.tipo x = AMULETO
           /\ ItemMagico.personagem_id x = Some dono).
  { intros x Hx. apply filter_In in Hx. destruct Hx as [Hx Hb].
    apply andb_true_iff in Hb. destruct Hb as [Ho Ht].
    apply owned_by_Some in Ho. apply TipoItem_eqb_eq in Ht. auto. }
  destruct (filter _ _) as [|x [|y rest]]; simpl; try lia.
  exfalso. simpl in Hnd. inversion Hnd as [|? ? Hnot _]; subst.
  apply Hnot. left.
  destruct (Hall x (or_introl eq_refl)) as (Hx & Htx & Hox).
  destruct (Hall y (or_intror (or_introl eq_refl))) as (Hy & Hty & Hoy).
  apply (Ha y x dono); assumption.
Qed.

Lemma executar_reachable (rs : list (Z * Request)) (db : DB) :
  reachable Amostra.nomes db -> Amostra.chaves_livres rs db ->
  reachable Amostra.nomes (Amostra.executar rs db).
Proof.
  revert db. induction rs as [|[k r] rs IH]; simpl; intros db Hr Hk; [exact Hr|].
  destruct Hk as [Hk Hrest]. apply IH; [| exact Hrest].
  apply reachable_handle; assumption.
Qed.

Lemma reachable_dois_herois_dois_amuletos :
  reachable Amostra.nomes Amostra.dois_herois_dois_amuletos.
Proof.
  apply executar_reachable; [apply reachable_vazio|].
  vm_compute. intuition discriminate.
Qed.

Lemma reachable_ana_com_amuleto :
  reachable Amostra.nomes Amostra.ana_com_amuleto.
Proof.
  apply executar_reachable; [apply reachable_dois_herois_dois_amuletos|].
  vm_compute. intuition discriminate.
Qed.

Lemma reachable_cada_um_com_seu_amuleto :
  reachable Amostra.nomes Amostra.cada_um_com_seu_amuleto.
Proof.
  apply executar_reachable; [apply reachable_ana_com_amuleto|].
  vm_compute. intuition discriminate.
Qed.

Lemma reachable_so_um_item : reachable Amostra.nomes Amostra.so_um_item.
Proof.
  apply executar_reachable; [apply reachable_vazio|].
  vm_compute. intuition discriminate.
Qed.

(** ** Assignment engine *)

(** C1 (as amended).  In every reachable state each owner has at most one
    Amulet, and every request leads to such a state again.  Attaching an
    Amulet that is not owned by another character to a character who owns a
    different Amulet fails with AmuletConflict and changes nothing; an item
    owned by another character is refused before that, with AlreadyOwned. *)
Theorem amuleto_unico (label : TipoItem -> string) (db : DB) :
  reachable label db ->
  (forall dono, (List.length (amuletos_de dono db) <= 1)%nat)
  /\ (forall novo_id r dono, chave_livre novo_id r db ->
        (List.length (amuletos_de dono (snd (handle label novo_id r db))) <= 1)%nat)
  /\ (forall pid iid personagem item outro,
        query_personagem pid db = Some personagem ->
        query_item iid db = Some item ->
        ItemMagico.tipo item = AMULETO ->
        (forall dono, ItemMagico.personagem_id item = Some dono -> dono = pid) ->
        In outro (itens_magicos db) ->
        ItemMagico.tipo outro = AMULETO ->
        ItemMagico.personagem_id outro = Some pid ->
        ItemMagico.id outro <> ItemMagico.id item ->
        adicionar_item_personagem pid (Some iid) db = (inr AmuletConflict, db))
  /\ (forall pid iid personagem item dono,
        query_personagem pid db = Some personagem ->
        query_item iid db = Some item ->
        ItemMagico.personagem_id item = Some dono -> dono <> pid ->
        adicionar_item_personagem pid (Some iid) db = (inr AlreadyOwned, db)).
Proof.
  intros Hr. pose proof (reachable_wf _ _ Hr) as Hwf. split; [| split; [| split]].
  - intros dono. apply wf_amuletos_de. exact Hwf.
  - intros novo_id r dono Hk. apply wf_amuletos_de. apply wf_handle; assumption.
  - intros pid iid p item outro Eqp Eqi Hti Hdono Hin Hto Hoo Hne.
    unfold adicionar_item_personagem. rewrite Eqp, Eqi.
    replace (match ItemMagico.personagem_id item with
             | Some dono => negb (dono =? pid) | None => false end) with false.
    2:{ destruct (ItemMagico.personagem_id item) as [dono|]; [| reflexivity].
        rewrite (Hdono dono eq_refl), Z.eqb_refl. reflexivity. }
    apply TipoItem_eqb_eq in Hti. rewrite Hti. simpl.
    destruct (query_amuleto pid db) as [e|] eqn:Eqa.
    + apply query_amuleto_Some in Eqa. destruct Eqa as (He & Hoe & Hte).
      assert (Eid : ItemMagico.id e = ItemMagico.id outro)
        by (apply (wf_amuleto _ Hwf e outro pid); assumption).
      rewrite Eid. apply Z.eqb_neq in Hne. rewrite Hne. reflexivity.
    + exfalso. exact (query_amuleto_None _ _ _ Eqa Hin Hto Hoo).
  - intros pid iid p item dono Eqp Eqi Ho Hne.
    unfold adicionar_item_personagem. rewrite Eqp, Eqi, Ho.
    apply Z.eqb_neq in Hne. rewrite Hne. reflexivity.
Qed.

Lemma amuleto_unico_witness :
  (List.length (amuletos_de 1 Amostra.ana_com_amuleto) <= 1)%nat
  /\ adicionar_item_personagem 1 (Some 2) Amostra.ana_com_amuleto
     = (inr AmuletConflict, Amostra.ana_com_amuleto).
Proof.
  pose proof (amuleto_unico Amostra.nomes Amostra.ana_com_amuleto
                reachable_ana_com_amuleto) as (Hcount & _ & Hconflict & _).
  split; [apply Hcount|].
  eapply (Hconflict 1 2);
    [ reflexivity | reflexivity | reflexivity
    | intros dono Hd; discriminate Hd
    | left; reflexivity | reflexivity | reflexivity | discriminate ].
Defined.

(** C1 as stated fails: character 1 owns Amulet 1, Amulet 2 belongs to
    character 2, and attaching Amulet 2 to character 1 is refused as
    AlreadyOwned, not as AmuletConflict. *)
Lemma amuleto_de_outro_AlreadyOwned :
  reachable Amostra.nomes Amostra.cada_um_com_seu_amuleto
  /\ (exists p, query_personagem 1 Amostra.cada_um_com_seu_amuleto = Some p)
  /\ (exists item, query_item 2 Amostra.cada_um_com_seu_amuleto = Some item
        /\ ItemMagico.tipo item = AMULETO)
  /\ (exists outro, In outro (itens_magicos Amostra.cada_um_com_seu_amuleto)
        /\ ItemMagico.tipo outro = AMULETO
        /\ ItemMagico.personagem_id outro = Some 1
        /\ ItemMagico.id outro <> 2)
  /\ fst (adicionar_item_personagem 1 (Some 2) Amostra.cada_um_com_seu_amuleto)
     = inr AlreadyOwned
  /\ AlreadyOwned <> AmuletConflict.
Proof.
  split; [exact reachable_cada_um_com_seu_amuleto|].
  split; [eexists; reflexivity|].
  split; [eexists; split; reflexivity|].
  split; [| split; [reflexivity | discriminate]].
  eexists. split; [left; reflexivity|]. repeat split. discriminate.
Qed.

(** C2.  With the character and the item both present, attaching fails
    with AlreadyOwned exactly when the item has an owner other than the
    character; attaching an item to the character that owns it already,
    Amulet or not, succeeds and leaves the state as it was. *)
Theorem adicionar_item_ao_dono (label : TipoItem -> string) (db : DB)
    (pid iid : Z) (personagem : Personagem.t) (item : ItemMagico.t) :
  reachable label db ->
  query_personagem pid db = Some personagem ->
  query_item iid db = Some item ->
  (fst (adicionar_item_personagem pid (Some iid) db) = inr AlreadyOwned
   <-> exists dono, ItemMagico.personagem_id item = Some dono /\ dono <> pid)
  /\ (ItemMagico.personagem_id item = Some pid ->
      adicionar_item_personagem pid (Some iid) db
      = (inl (BPersonagem (resposta_personagem personagem db)), db)).
Proof.
  intros Hr Eqp Eqi. pose proof (reachable_wf _ _ Hr) as Hwf.
  pose proof (query_item_id _ _ _ Eqi) as [Hin Hid].
  unfold adicionar_item_personagem. rewrite Eqp, Eqi. split.
  - destruct (ItemMagico.personagem_id item) as [dono|].
    + destruct (Z.eqb_spec dono pid) as [E|E]; simpl.
      * split.
        -- destruct (TipoItem_eqb _ _ && _); simpl; intros H; discriminate H.
        -- intros [d [Hd Hne]]. congruence.
      * split; [| reflexivity]. intros _. exists dono. auto.
    + split.
      * destruct (TipoItem_eqb _ _ && _); simpl; intros H; discriminate H.
      * intros [d [Hd _]]. discriminate Hd.
  - intros Ho. rewrite Ho, Z.eqb_refl. simpl.
    replace (TipoItem_eqb (ItemMagico.tipo item) AMULETO
             && match query_amuleto pid db with
                | Some e => negb (ItemMagico.id e =? ItemMagico.id item)
                | None => false
                end) with false.
    2:{ destruct (TipoItem_eqb (ItemMagico.tipo item) AMULETO) eqn:Et; [| reflexivity].
        apply TipoItem_eqb_eq in Et. simpl.
        destruct (query_amuleto pid db) as [e|] eqn:Eqa; [| reflexivity].
        apply query_amuleto_Some in Eqa. destruct Eqa as (He & Hoe & Hte).
        rewrite (wf_amuleto _ Hwf e item pid He Hin Hte Et Hoe Ho), Z.eqb_refl.
        reflexivity. }
    apply query_personagem_id in Eqp. rewrite Eqp.
    assert (Esame : update_item (ItemMagico.id item)
                      (ItemMagico.with_personagem_id (Some pid)) db = db).
    { unfold update_item. destruct db as [ps its]; simpl in *. f_equal.
      apply (update_same ItemMagico.id).
      intros r Hrin Hrid.
      assert (r = item)
        by (apply (find_key_unique ItemMagico.id its iid);
            [exact (wf_chaves_itens _ Hwf) | exact Eqi | exact Hrin | congruence]).
      subst r. destruct item; simpl in *. subst. reflexivity. }
    rewrite Esame. reflexivity.
Qed.

Lemma adicionar_item_ao_dono_witness :
  adicionar_item_personagem 1 (Some 1) Amostra.cada_um_com_seu_amuleto
  = (fst (buscar_personagem 1 Amostra.cada_um_com_seu_amuleto),
     Amostra.cada_um_com_seu_amuleto).
Proof.
  refine (proj2 (adicionar_item_ao_dono Amostra.nomes Amostra.cada_um_com_seu_amuleto
                   1 1 _ _ reachable_cada_um_com_seu_amuleto eq_refl eq_refl) eq_refl).
Defined.

(** C5.  Deleting an existing character succeeds; afterwards the character
    is gone, every item it owned has no owner, every other item is as
    before, and each item that could be fetched by its id still can. *)
Theorem remover_personagem_desvincula (db : DB) (pid : Z) (personagem : Personagem.t) :
  query_personagem pid db = Some personagem ->
  let db' := snd (remover_personagem pid db) in
  let solto := fun i => if ItemMagico.owned_by pid i
                        then ItemMagico.with_personagem_id None i else i in
  fst (remover_personagem pid db) = inl (BMensagem (PersonagemRemovido pid))
  /\ query_personagem pid db' = None
  /\ itens_magicos db' = map solto (itens_magicos db)
  /\ (forall i, In i (itens_magicos db') -> ItemMagico.personagem_id i <> Some pid)
  /\ (forall iid item, buscar_item_magico iid db = (inl (BItem item), db) ->
        buscar_item_magico iid db' = (inl (BItem (solto item)), db'))
  /\ (forall iid, (exists item, query_item iid db = Some item)
                  <-> (exists item, query_item iid db' = Some item)).
Proof.
  intros Eqp. pose proof (query_personagem_id _ _ _ Eqp) as Ep.
  unfold remover_personagem. rewrite Eqp, Ep. simpl.
  assert (Hq : forall iid, query_item iid
             {| personagens := filter (fun p => negb (Personagem.id p =? pid)) (personagens db);
                itens_magicos := map (fun i => if ItemMagico.owned_by pid i
                                      then ItemMagico.with_personagem_id None i else i)
                                     (itens_magicos db) |}
           = option_map (fun i => if ItemMagico.owned_by pid i
                                  then ItemMagico.with_personagem_id None i else i)
                        (query_item iid db)).
  { intros iid. unfold query_item. simpl. apply (find_key_map ItemMagico.id).
    intros r. destruct (ItemMagico.owned_by pid r); reflexivity. }
  repeat split.
  - unfold query_personagem. simpl.
    destruct (find _ (filter _ _)) as [q|] eqn:Ef; [| reflexivity].
    apply find_some in Ef. destruct Ef as [Hin Hk].
    apply filter_In in Hin. destruct Hin as [_ Hne].
    rewrite Hk in Hne. discriminate Hne.
  - intros i Hin Ho. apply in_map_iff in Hin. destruct Hin as [i0 [<- _]].
    destruct (ItemMagico.owned_by pid i0) eqn:E; simpl in Ho; [discriminate Ho|].
    apply owned_by_Some in Ho. congruence.
  - intros iid item. unfold buscar_item_magico. rewrite Hq.
    destruct (query_item iid db) as [it|]; simpl; intros H; inversion H.
    reflexivity.
  - intros [item E]. rewrite Hq, E. simpl. eauto.
  - intros [item E]. rewrite Hq in E.
    destruct (query_item iid db) as [it|]; [eauto | discriminate E].
Qed.

Lemma remover_personagem_desvincula_witness :
  fst (remover_personagem 1 Amostra.cada_um_com_seu_amuleto)
    = inl (BMensagem (PersonagemRemovido 1))
  /\ query_personagem 1 (snd (remover_personagem 1 Amostra.cada_um_com_seu_amuleto)) = None
  /\ exists item,
       fst (buscar_item_magico 1 (snd (remover_personagem 1 Amostra.cada_um_com_seu_amuleto)))
         = inl (BItem item)
       /\ ItemMagico.personagem_id item = None.
Proof.
  pose proof (remover_personagem_desvincula Amostra.cada_um_com_seu_amuleto 1 _ eq_refl)
    as (Hok & Hgone & _ & _ & Hget & _).
  split; [exact Hok|]. split; [exact Hgone|].
  eexists. split.
  - rewrite (Hget 1 _ eq_refl). reflexivity.
  - reflexivity.
Defined.

(** C7 (as amended).  For an existing character, detaching an item that
    is unowned or owned by somebody else fails with the 404 of the item
    (never a 400 or another ownership error) and changes nothing; a detach
    that succeeds clears the owner of that item, which stays in the table and
    can still be fetched by its id. *)
Theorem remover_item_nao_encontrado (label : TipoItem -> string) (db : DB)
    (pid iid : Z) (personagem : Personagem.t) (item : ItemMagico.t) :
  reachable label db ->
  query_personagem pid db = Some personagem ->
  query_item iid db = Some item ->
  (ItemMagico.personagem_id item <> Some pid ->
     remover_item_do_personagem pid iid db = (inr (HTTPException 404 ItemNaoNoInventario), db)
     /\ is_NotFound_Item (HTTPException 404 ItemNaoNoInventario) = true)
  /\ (ItemMagico.personagem_id item = Some pid ->
     let db' := snd (remover_item_do_personagem pid iid db) in
     fst (remover_item_do_personagem pid iid db) = inl (BMensagem (ItemRemovido iid pid))
     /\ buscar_item_magico iid db' = (inl (BItem (ItemMagico.with_personagem_id None item)), db')
     /\ map ItemMagico.id (itens_magicos db') = map ItemMagico.id (itens_magicos db)
     /\ personagens db' = personagens db).
Proof.
  intros Hr Eqp Eqi. pose proof (reachable_wf _ _ Hr) as Hwf.
  pose proof (query_item_id _ _ _ Eqi) as [Hin Hid].
  unfold remover_item_do_personagem. rewrite Eqp.
  destruct (find (fun i => (ItemMagico.id i =? iid) && ItemMagico.owned_by pid i)
                 (itens_magicos db)) as [found|] eqn:Ef.
  - apply find_some in Ef. destruct Ef as [Hfin Hf].
    apply andb_true_iff in Hf. destruct Hf as [Hfid Hfo].
    apply Z.eqb_eq in Hfid. apply owned_by_Some in Hfo.
    assert (found = item)
      by (apply (find_key_unique ItemMagico.id (itens_magicos db) iid);
          [exact (wf_chaves_itens _ Hwf) | exact Eqi | exact Hfin | exact Hfid]).
    subst found. split; [intros Hne; contradiction|].
    intros _. simpl. repeat split.
    + unfold buscar_item_magico, query_item, update_item. simpl.
      rewrite (find_key_map ItemMagico.id).
      2:{ intros r. destruct (ItemMagico.id r =? ItemMagico.id item); reflexivity. }
      fold (query_item iid db). rewrite Eqi. simpl.
      rewrite Z.eqb_refl. reflexivity.
    + apply (map_key_map ItemMagico.id).
      intros r. destruct (ItemMagico.id r =? ItemMagico.id item); reflexivity.
  - split; [intros _; split; reflexivity|].
    intros Ho. exfalso.
    apply (find_none _ _ Ef) in Hin. apply owned_by_Some in Ho.
    rewrite Ho, Hid, Z.eqb_refl in Hin. discriminate Hin.
Qed.

Lemma remover_item_nao_encontrado_witness :
  remover_item_do_personagem 1 2 Amostra.cada_um_com_seu_amuleto
    = (inr (HTTPException 404 ItemNaoNoInventario), Amostra.cada_um_com_seu_amuleto)
  /\ fst (remover_item_do_personagem 1 2 Amostra.ana_com_amuleto)
    = inr (HTTPException 404 ItemNaoNoInventario)
  /\ fst (remover_item_do_personagem 1 1 Amostra.ana_com_amuleto)
    = inl (BMensagem (ItemRemovido 1 1)).
Proof.
  split; [| split].
  - refine (proj1 (proj1 (remover_item_nao_encontrado Amostra.nomes
               Amostra.cada_um_com_seu_amuleto 1 2 _ _
               reachable_cada_um_com_seu_amuleto eq_refl eq_refl) _)).
    discriminate.
  - refine (f_equal fst (proj1 (proj1 (remover_item_nao_encontrado Amostra.nomes
               Amostra.ana_com_amuleto 1 2 _ _
               reachable_ana_com_amuleto eq_refl eq_refl) _))).
    discriminate.
  - refine (proj1 (proj2 (remover_item_nao_encontrado Amostra.nomes
               Amostra.ana_com_amuleto 1 1 _ _
               reachable_ana_com_amuleto eq_refl eq_refl) eq_refl)).
Defined.

(** C7 as stated fails: with no character 1 in the store and item 1
    unowned, detaching item 1 from character 1 is answered with the 404 of
    the character, not with the one of the item. *)
Lemma remover_item_sem_personagem :
  reachable Amostra.nomes Amostra.so_um_item
  /\ (exists item, query_item 1 Amostra.so_um_item = Some item
        /\ ItemMagico.personagem_id item = None)
  /\ remover_item_do_personagem 1 1 Amostra.so_um_item
     = (inr NotFound_Character, Amostra.so_um_item)
  /\ is_NotFound_Item NotFound_Character = false.
Proof.
  split; [exact reachable_so_um_item|].
  split; [eexists; split; reflexivity|].
  split; reflexivity.
Qed.

(** C10.  Renaming an existing character succeeds and rewrites the
    adventurer name of the rows with that id and nothing else: the other
    columns of the character, the other characters and the whole item table
    (owners included) are as before. *)
Theorem atualizar_nome_aventureiro_frame (db : DB) (pid : Z) (novo : string)
    (personagem : Personagem.t) :
  query_personagem pid db = Some personagem ->
  let db' := snd (atualizar_nome_aventureiro pid (Some novo) db) in
  let p' := Personagem.with_nome_aventureiro novo personagem in
  fst (atualizar_nome_aventureiro pid (Some novo) db)
    = inl (BPersonagem (resposta_personagem p' db'))
  /\ query_personagem pid db' = Some p'
  /\ Personagem.nome_aventureiro p' = novo
  /\ Personagem.id p' = Personagem.id personagem
  /\ Personagem.nome p' = Personagem.nome personagem
  /\ Personagem.classe p' = Personagem.classe personagem
  /\ Personagem.level p' = Personagem.level personagem
  /\ Personagem.forca_base p' = Personagem.forca_base personagem
  /\ Personagem.defesa_base p' = Personagem.defesa_base personagem
  /\ itens_magicos db' = itens_magicos db
  /\ map ItemMagico.personagem_id (itens_magicos db')
     = map ItemMagico.personagem_id (itens_magicos db)
  /\ (forall q, q <> pid -> query_personagem q db' = query_personagem q db)
  /\ personagens db'
     = map (fun p => if Personagem.id p =? pid
                     then Personagem.with_nome_aventureiro novo p else p)
           (personagens db).
Proof.
  intros Eqp. pose proof (query_personagem_id _ _ _ Eqp) as Ep.
  unfold atualizar_nome_aventureiro. rewrite Eqp, Ep. simpl.
  assert (Hq : forall q, query_personagem q
             (update_personagem pid (Personagem.with_nome_aventureiro novo) db)
           = option_map (fun p => if Personagem.id p =? pid
                                  then Personagem.with_nome_aventureiro novo p else p)
                        (query_personagem q db)).
  { intros q. unfold query_personagem, update_personagem. simpl.
    apply (find_key_map Personagem.id).
    intros r. destruct (Personagem.id r =? pid); reflexivity. }
  repeat split.
  - rewrite Hq, Eqp. simpl. rewrite Ep, Z.eqb_refl. reflexivity.
  - exact Ep.
  - intros q Hne. rewrite Hq.
    destruct (query_personagem q db) as [p|] eqn:E; [| reflexivity].
    apply query_personagem_id in E. simpl.
    destruct (Z.eqb_spec (Personagem.id p) pid); [congruence | reflexivity].
Qed.

Lemma atualizar_nome_aventureiro_frame_witness :
  itens_magicos (snd (atualizar_nome_aventureiro 1 (Some "Flecha"%string)
                        Amostra.cada_um_com_seu_amuleto))
  = itens_magicos Amostra.cada_um_com_seu_amuleto.
Proof.
  pose proof (atualizar_nome_aventureiro_frame Amostra.cada_um_com_seu_amuleto 1
                "Flecha"%string _ eq_refl) as H.
  cbv zeta in H. apply H.
Defined.

(** Type consistency holds for every model the validators let through,
    whether an attribute was supplied or defaulted. *)
Lemma item_parse_tipo (i : ItemMagicoBase.input) (m : ItemMagicoBase.t) :
  ItemMagicoBase.parse i = inl m ->
  (ItemMagicoBase.tipo m = ARMA -> ItemMagicoBase.defesa m = 0)
  /\ (ItemMagicoBase.tipo m = ARMADURA -> ItemMagicoBase.forca m = 0).
Proof.
  intros Hp. destruct (item_parse_campos i m Hp) as (_ & _ & Hf & Hd). split.
  - destruct Hd as [[_ E] | (_ & _ & H & _)]; [intros _; exact E | exact H].
  - destruct Hf as [[_ E] | (_ & _ & H)]; [intros _; exact E | exact H].
Qed.

(** ** Stored items obey the business rules *)

Lemma criar_item_magico_valido (label : TipoItem -> string) (novo_id : Z)
    (body : ItemMagicoBase.input) (db : DB) (it : ItemMagico.t) :
  fst (handle label novo_id (POST_itens_magicos body) db) = inl (BItem it) ->
  item_valido (ItemMagico.tipo it) (ItemMagico.forca it) (ItemMagico.defesa it)
  /\ itens_magicos (snd (handle label novo_id (POST_itens_magicos body) db))
     = itens_magicos db ++ [it].
Proof.
  simpl. destruct (ItemMagicoBase.parse body) as [m|errs] eqn:Ep; [| discriminate].
  unfold criar_item_magico.
  destruct (ItemMagico.check_constraints label _) eqn:Ec; [| discriminate].
  simpl. intros H. inversion H; subst it; clear H. simpl. split; [| reflexivity].
  destruct (item_parse_tipo body m Ep) as [Ha Hb].
  unfold ItemMagico.check_constraints in Ec. simpl in Ec.
  repeat (apply andb_true_iff in Ec; destruct Ec as [Ec ?]).
  repeat split; [exact Ha | exact Hb |].
  match goal with
  | H : (0 <? _) || (0 <? _) = true |- _ =>
      apply orb_true_iff in H; destruct H as [H|H]; apply Z.ltb_lt in H; lia
  end.
Qed.

Lemma itens_validos_handle (label : TipoItem -> string) (novo_id : Z) (r : Request)
    (db : DB) :
  (forall it, In it (itens_magicos db) ->
     item_valido (ItemMagico.tipo it) (ItemMagico.forca it) (ItemMagico.defesa it)) ->
  forall it, In it (itens_magicos (snd (handle label novo_id r db))) ->
     item_valido (ItemMagico.tipo it) (ItemMagico.forca it) (ItemMagico.defesa it).
Proof.
  intros Hall it.
  assert (Hmap : forall g : ItemMagico.t -> ItemMagico.t,
            (forall x, ItemMagico.tipo (g x) = ItemMagico.tipo x
                       /\ ItemMagico.forca (g x) = ItemMagico.forca x
                       /\ ItemMagico.defesa (g x) = ItemMagico.defesa x) ->
            In it (map g (itens_magicos db)) ->
            item_valido (ItemMagico.tipo it) (ItemMagico.forca it) (ItemMagico.defesa it)).
  { intros g Hg Hin. apply in_map_iff in Hin. destruct Hin as [x [<- Hx]].
    destruct (Hg x) as (-> & -> & ->). apply Hall. exact Hx. }
  destruct r as [body|pid dados| pid | body | pid dados | pid iid].
  - simpl. destruct (PersonagemBase.parse body); [| apply Hall].
    unfold criar_personagem. destruct (negb _); [apply Hall|].
    destruct (Personagem.check_constraints _); apply Hall.
  - simpl. destruct (parse_dados _ dados) as [d|]; [| apply Hall].
    unfold atualizar_nome_aventureiro.
    destruct (query_personagem pid db); [| apply Hall].
    destruct d; apply Hall.
  - simpl. unfold remover_personagem.
    destruct (query_personagem pid db); [| apply Hall].
    simpl. apply Hmap. intros x. destruct (ItemMagico.owned_by _ x); simpl; auto.
  - destruct (fst (handle label novo_id (POST_itens_magicos body) db)) as [b|f] eqn:E.
    + simpl in E |- *. destruct (ItemMagicoBase.parse body) as [m|] eqn:Ep; [| discriminate].
      unfold criar_item_magico in *.
      destruct (ItemMagico.check_constraints label _) eqn:Ec; [| discriminate].
      simpl. intros Hin. apply in_app_iff in Hin. destruct Hin as [Hin | [<- | []]].
      * apply Hall. exact Hin.
      * refine (proj1 (criar_item_magico_valido label novo_id body db _ _)).
        simpl. rewrite Ep. unfold criar_item_magico. rewrite Ec. reflexivity.
    + simpl in E |- *. destruct (ItemMagicoBase.parse body) as [m|]; [| apply Hall].
      unfold criar_item_magico in *.
      destruct (ItemMagico.check_constraints label _); [discriminate | apply Hall].
  - simpl. destruct (parse_dados _ dados) as [d|]; [| apply Hall].
    unfold adicionar_item_personagem.
    destruct (query_personagem pid db); [| apply Hall].
    destruct d as [iid|]; [| apply Hall].
    destruct (query_item iid db) as [item|]; [| apply Hall].
    destruct (match ItemMagico.personagem_id item with
              | Some dono => negb (dono =? pid) | None => false end); [apply Hall|].
    destruct (TipoItem_eqb _ _ && _); [apply Hall|].
    simpl. apply Hmap. intros x. destruct (ItemMagico.id x =? _); simpl; auto.
  - simpl. unfold remover_item_do_personagem.
    destruct (query_personagem pid db); [| apply Hall].
    destruct (find _ _); [| apply Hall].
    simpl. apply Hmap. intros x. destruct (ItemMagico.id x =? _); simpl; auto.
Qed.

Lemma reachable_itens_validos (label : TipoItem -> string) (db : DB) :
  reachable label db ->
  forall it, In it (itens_magicos db) ->
    item_valido (ItemMagico.tipo it) (ItemMagico.forca it) (ItemMagico.defesa it).
Proof.
  induction 1 as [| db novo_id r _ IH _]; [intros it [] |].
  apply itens_validos_handle. exact IH.
Qed.

(** The field validators alone let a zero item through when [defesa] is
    left out of the request; the insert is then refused by the table. *)
Lemma arma_sem_defesa_IntegrityError :
  ItemMagicoBase.parse Amostra.arma_sem_defesa
    = inl {| ItemMagicoBase.nome := "Adaga"; ItemMagicoBase.tipo := ARMA;
             ItemMagicoBase.forca := 0; ItemMagicoBase.defesa := 0 |}
  /\ handle Amostra.nomes 1 (POST_itens_magicos Amostra.arma_sem_defesa) db_vazio
     = (inr IntegrityError, db_vazio).
Proof. split; reflexivity. Qed.

(** C8 (as amended).  Every item accepted by validation (the field
    validators of the request followed by the check constraints of the table,
    that is, every item the create route answers with) satisfies BOTH
    implications, a Weapon has defense 0 and an Armor has strength 0, and has
    strength > 0 or defense > 0; so does every item of every reachable
    state. *)
Theorem item_aceito_valido :
  (forall label novo_id body db it,
     fst (handle label novo_id (POST_itens_magicos body) db) = inl (BItem it) ->
     item_valido (ItemMagico.tipo it) (ItemMagico.forca it) (ItemMagico.defesa it))
  /\ (forall label db it,
        reachable label db -> In it (itens_magicos db) ->
        item_valido (ItemMagico.tipo it) (ItemMagico.forca it) (ItemMagico.defesa it)).
Proof.
  split.
  - intros label novo_id body db it H.
    exact (proj1 (criar_item_magico_valido label novo_id body db it H)).
  - intros label db it Hr Hin. exact (reachable_itens_validos label db Hr it Hin).
Qed.

Lemma item_aceito_valido_witness :
  item_valido ARMA 5 0
  /\ (forall it, In it (itens_magicos Amostra.cada_um_com_seu_amuleto) ->
        item_valido (ItemMagico.tipo it) (ItemMagico.forca it) (ItemMagico.defesa it)).
Proof.
  destruct item_aceito_valido as (Hroute & Hreach). split.
  - exact (Hroute Amostra.nomes 1 Amostra.espada db_vazio
             {| ItemMagico.id := 1; ItemMagico.nome := "Espada"; ItemMagico.tipo := ARMA;
                ItemMagico.forca := 5; ItemMagico.defesa := 0;
                ItemMagico.personagem_id := None |} eq_refl).
  - intros it. apply (Hreach Amostra.nomes). exact reachable_cada_um_com_seu_amuleto.
Defined.

(** C8 as stated fails: the sword (Weapon, strength 5, defense 0) is
    accepted, and for it both implications hold, not exactly one. *)
Lemma espada_ambas_implicacoes :
  ItemMagicoBase.parse Amostra.espada
    = inl {| ItemMagicoBase.nome := "Espada"; ItemMagicoBase.tipo := ARMA;
             ItemMagicoBase.forca := 5; ItemMagicoBase.defesa := 0 |}
  /\ ~ exactly_one (ARMA = ARMA -> 0 = 0) (ARMA = ARMADURA -> 5 = 0).
Proof.
  split; [reflexivity|].
  intros [[_ Hn] | [Hn _]]; apply Hn; intros; (reflexivity || discriminate).
Qed.

(** The level of an accepted character: left out (then 1) or at least 1. *)
Lemma personagem_parse_level (i : PersonagemBase.input) (m : PersonagemBase.t) :
  PersonagemBase.parse i = inl m ->
  PersonagemBase.in_level i = Absent /\ PersonagemBase.level m = 1
  \/ PersonagemBase.in_level i = Given (PersonagemBase.level m)
     /\ 1 <= PersonagemBase.level m.
Proof.
  intros Hp. apply personagem_parse_inl in Hp. destruct Hp as [He Hv].
  destruct i as [rn rna rc rlv rfb rd]; simpl.
  unfold PersonagemBase.validate_model in *; cbv zeta in *; simpl in He, Hv.
  apply record_field_ok in He. destruct He as [He [d Ed]].
  apply record_field_ok in He. destruct He as [He [fb Efb]].
  apply record_field_ok in He. destruct He as [He [lv Elv]].
  apply record_field_ok in He. destruct He as [He [c Ec]].
  apply record_field_ok in He. destruct He as [He [na Ena]].
  apply record_field_ok in He. destruct He as [_ [n En]].
  rewrite En in *. simpl in *. rewrite Ena in *. simpl in *.
  rewrite Ec in *. simpl in *. rewrite Elv in *. simpl in *.
  rewrite Efb in *. simpl in *. rewrite Ed in *. simpl in *.
  destruct m as [n' na' c' lv' fb' d']; simpl in *.
  inversion Hv; subst n' na' c' lv' fb' d'. clear Hv.
  unfold Pydantic.validate_field in Elv. destruct rlv as [| |v]; try discriminate.
  - left. inversion Elv. auto.
  - right. destruct (Pydantic.conint (Some 1) None v) as [w|] eqn:E; try discriminate.
    apply conint_Ok in E. destruct E as (-> & Hlo & _).
    simpl in Elv. inversion Elv. subst. auto.
Qed.

(** A request of the accepted shape is accepted. *)
Lemma personagem_aceito_parse (i : PersonagemBase.input) (m : PersonagemBase.t) :
  personagem_aceito i m -> PersonagemBase.parse i = inl m.
Proof.
  destruct i as [rn rna rc rlv rfb rd]. destruct m as [n na c lv fb d].
  unfold personagem_aceito. simpl.
  intros (-> & -> & -> & Hlv & -> & -> & Hfb & Hd & Hsum).
  destruct Hlv as [[-> ->] | [-> Hlv]];
    unfold_personagem; simpl; split_tests; (reflexivity || lia).
Qed.

Lemma item_aceito_parse (i : ItemMagicoBase.input) (m : ItemMagicoBase.t) :
  item_aceito i m -> ItemMagicoBase.parse i = inl m.
Proof.
  destruct i as [rn rty rf rd]. destruct m as [n ty f d].
  unfold item_aceito. simpl. intros (-> & -> & Hf & Hd).
  assert (Hf0 : 0 <= f) by (destruct Hf as [[_ ->] | (_ & Hr & _)]; lia).
  destruct Hf as [[-> ->] | (-> & Hfr & Hft)];
  destruct Hd as [[-> ->] | (-> & Hdr & Hdt & Hnz)];
    destruct ty; unfold_item; simpl; split_tests;
    try reflexivity; exfalso;
    try (specialize (Hft eq_refl)); try (specialize (Hdt eq_refl)); lia.
Qed.

(** C9 (as amended).  An accepted character has the [nome] and the
    [nome_aventureiro] read from its request, and an accepted item the [nome]
    read from its request: a request that leaves one of them out is rejected.
    What is read is not inspected: the field accepts every string, the empty
    one included, and an accepted request stays accepted when its names are
    replaced by any strings. *)
Theorem nomes_sao_texto :
  (forall i m, PersonagemBase.parse i = inl m ->
     PersonagemBase.in_nome i = Given (PersonagemBase.nome m)
     /\ PersonagemBase.in_nome_aventureiro i = Given (PersonagemBase.nome_aventureiro m))
  /\ (forall i m, ItemMagicoBase.parse i = inl m ->
     ItemMagicoBase.in_nome i = Given (ItemMagicoBase.nome m))
  /\ (forall (s : string) (vp : PersonagemBase.values) (vi : ItemMagicoBase.values),
     Pydantic.validate_field None Pydantic.unconstrained [] (Given s) vp = Ok s
     /\ Pydantic.validate_field None Pydantic.unconstrained [] (Given s) vi = Ok s)
  /\ (forall i m n na, PersonagemBase.parse i = inl m ->
     PersonagemBase.parse (personagem_com_nomes n na i) = inl (modelo_com_nomes n na m))
  /\ (forall i m n, ItemMagicoBase.parse i = inl m ->
     ItemMagicoBase.parse (item_com_nome n i) = inl (modelo_item_com_nome n m)).
Proof.
  split; [| split; [| split; [| split]]].
  - intros i m Hp. destruct (personagem_parse_campos i m Hp) as (H1 & H2 & _). auto.
  - intros i m Hp. destruct (item_parse_campos i m Hp) as (H1 & _). exact H1.
  - intros s vp vi. split; reflexivity.
  - intros i m n na Hp. apply personagem_aceito_parse.
    pose proof (personagem_parse_level i m Hp) as Hlv.
    destruct (personagem_parse_campos i m Hp)
      as (_ & _ & H3 & H4 & H5 & H6 & H7 & H8 & H9).
    unfold personagem_aceito, personagem_com_nomes, modelo_com_nomes. simpl. tauto.
  - intros i m n Hp. apply item_aceito_parse.
    destruct (item_parse_campos i m Hp) as (_ & H2 & H3 & H4).
    unfold item_aceito, item_com_nome, modelo_item_com_nome. simpl. tauto.
Qed.

Lemma nomes_sao_texto_witness :
  PersonagemBase.in_nome (Amostra.heroi "Ana" "Zarabatana" 6 4) = Given "Ana"%string
  /\ ItemMagicoBase.in_nome Amostra.espada = Given "Espada"%string
  /\ PersonagemBase.parse (personagem_com_nomes "" "" (Amostra.heroi "Ana" "Zarabatana" 6 4))
     = inl (modelo_com_nomes "" ""
              {| PersonagemBase.nome := "Ana"; PersonagemBase.nome_aventureiro := "Zarabatana";
                 PersonagemBase.classe := MAGO; PersonagemBase.level := 1;
                 PersonagemBase.forca_base := 6; PersonagemBase.defesa_base := 4 |}).
Proof.
  destruct nomes_sao_texto as (Hp & Hi & _ & Hn & _). split; [| split].
  - exact (proj1 (Hp (Amostra.heroi "Ana" "Zarabatana" 6 4)
                    {| PersonagemBase.nome := "Ana"; PersonagemBase.nome_aventureiro := "Zarabatana";
                       PersonagemBase.classe := MAGO; PersonagemBase.level := 1;
                       PersonagemBase.forca_base := 6; PersonagemBase.defesa_base := 4 |}
                    eq_refl)).
  - exact (Hi Amostra.espada
             {| ItemMagicoBase.nome := "Espada"; ItemMagicoBase.tipo := ARMA;
                ItemMagicoBase.forca := 5; ItemMagicoBase.defesa := 0 |} eq_refl).
  - exact (Hn (Amostra.heroi "Ana" "Zarabatana" 6 4) _ ""%string ""%string eq_refl).
Defined.

(** C9 as stated fails: a character whose two names are empty and an item
    whose name is empty pass validation and are stored. *)
Lemma nomes_vazios_aceitos :
  PersonagemBase.parse Amostra.heroi_sem_nomes
    = inl {| PersonagemBase.nome := ""; PersonagemBase.nome_aventureiro := "";
             PersonagemBase.classe := MAGO; PersonagemBase.level := 1;
             PersonagemBase.forca_base := 6; PersonagemBase.defesa_base := 4 |}
  /\ ItemMagicoBase.parse Amostra.item_sem_nome
    = inl {| ItemMagicoBase.nome := ""; ItemMagicoBase.tipo := ARMA;
             ItemMagicoBase.forca := 5; ItemMagicoBase.defesa := 0 |}
  /\ map Personagem.nome
       (personagens (snd (handle Amostra.nomes 1 (POST_personagens Amostra.heroi_sem_nomes)
                            db_vazio))) = [""%string]
  /\ map ItemMagico.nome
       (itens_magicos (snd (handle Amostra.nomes 1 (POST_itens_magicos Amostra.item_sem_nome)
                              db_vazio))) = [""%string].
Proof. repeat split. Qed.

(** * Further properties of the code *)

(** ** Acceptance criteria of the request models *)


(** X1.  A character request is accepted, and yields the model [m],
    exactly when the two names and the class are supplied, the level is left
    out (then 1) or at least 1, and both base attributes are supplied within
    [0,10] with a sum of at most 10. *)
Theorem personagem_parse_iff (i : PersonagemBase.input) (m : PersonagemBase.t) :
  PersonagemBase.parse i = inl m <-> personagem_aceito i m.
Proof.
  split.
  - intros Hp. pose proof (personagem_parse_level i m Hp) as Hlv.
    destruct (personagem_parse_campos i m Hp)
      as (H1 & H2 & H3 & H4 & H5 & H6 & H7 & H8 & H9).
    unfold personagem_aceito. tauto.
  - destruct i as [rn rna rc rlv rfb rd]. destruct m as [n na c lv fb d].
    unfold personagem_aceito. simpl.
    intros (-> & -> & -> & Hlv & -> & -> & Hfb & Hd & Hsum).
    destruct Hlv as [[-> ->] | [-> Hlv]];
      unfold_personagem; simpl; split_tests; (reflexivity || lia).
Qed.

(** X2.  An item request is accepted, and yields the model [m], exactly
    when name and type are supplied, each attribute is either left out (then
    0, unchecked) or supplied within [0,10] and consistent with the type, and
    a supplied defense is not 0 together with a strength of 0. *)
Theorem item_parse_iff (i : ItemMagicoBase.input) (m : ItemMagicoBase.t) :
  ItemMagicoBase.parse i = inl m <-> item_aceito i m.
Proof.
  split; [apply item_parse_campos|].
  destruct i as [rn rty rf rd]. destruct m as [n ty f d].
  unfold item_aceito. simpl. intros (-> & -> & Hf & Hd).
  assert (Hf0 : 0 <= f) by (destruct Hf as [[_ ->] | (_ & Hr & _)]; lia).
  destruct Hf as [[-> ->] | (-> & Hfr & Hft)];
  destruct Hd as [[-> ->] | (-> & Hdr & Hdt & Hnz)];
    destruct ty; unfold_item; simpl; split_tests;
    try reflexivity; exfalso;
    try (specialize (Hft eq_refl)); try (specialize (Hdt eq_refl)); lia.
Qed.

(** A field that fails, or one that sets another key, leaves a key of
    [values] as it was. *)
Lemma record_field_keeps {V A B : Type} (g : V -> B) (loc : Field)
    (set : A -> V -> V) (o : res A) (st : V * list ErrorWrapper) :
  (forall a v, g (set a v) = g v) ->
  g (fst (Pydantic.record_field loc set o st)) = g (fst st).
Proof. intros Hg. destruct o; simpl; [apply Hg | reflexivity]. Qed.

(** X3.  Over all requests: the budget error is reported exactly when
    both base attributes are supplied within [0,10] and sum to more than 10.
    An attribute out of its range, missing or malformed silences the budget
    check. *)
Theorem budget_reported_iff (i : PersonagemBase.input) :
  reports BudgetExceeded (snd (PersonagemBase.validate_model i)) = true
  <-> exists fb d,
        PersonagemBase.in_forca_base i = Given fb
        /\ PersonagemBase.in_defesa_base i = Given d
        /\ 0 <= fb <= 10 /\ 0 <= d <= 10 /\ 10 < fb + d.
Proof.
  destruct i as [rn rna rc rlv rfb rd].
  unfold PersonagemBase.validate_model; cbv zeta.
  rewrite !reports_record_field.
  cbn [PersonagemBase.in_nome PersonagemBase.in_nome_aventureiro
       PersonagemBase.in_classe PersonagemBase.in_level
       PersonagemBase.in_forca_base PersonagemBase.in_defesa_base].
  rewrite !plain_field_error by (unfold business_error; auto).
  rewrite !conint_field_error by (unfold business_error; auto).
  cbn [reports existsb snd orb].
  destruct rd as [| |d]; cbn [Pydantic.validate_field];
    try (split; [discriminate | intros (fb & d & _ & E & _); discriminate E]).
  unfold Pydantic.conint at 1.
  destruct (Z.ltb_spec d 0) as [Hd0|Hd0]; cbn [orb];
    [split; [discriminate | intros (fb & d' & _ & E & _ & Hr & _); inversion E; lia] |].
  destruct (Z.ltb_spec 10 d) as [Hd1|Hd1]; cbn [orb];
    [split; [discriminate | intros (fb & d' & _ & E & _ & Hr & _); inversion E; lia] |].
  cbn [Pydantic.apply_validators]. unfold PersonagemBase.validar_total_pontos.
  destruct rfb as [| |fb]; cbn [Pydantic.validate_field Pydantic.record_field fst].
  1,2: rewrite !(record_field_keeps PersonagemBase.v_forca_base) by reflexivity;
       cbn; split; [discriminate | intros (fb & d' & E & _); discriminate E].
  unfold Pydantic.conint at 1.
  destruct (Z.ltb_spec fb 0) as [Hf0|Hf0]; cbn [orb].
  { cbn [Pydantic.record_field fst]. rewrite !(record_field_keeps PersonagemBase.v_forca_base) by reflexivity.
    cbn. split; [discriminate | intros (fb' & d' & E & _ & Hr & _); inversion E; lia]. }
  destruct (Z.ltb_spec 10 fb) as [Hf1|Hf1]; cbn [orb].
  { cbn [Pydantic.record_field fst]. rewrite !(record_field_keeps PersonagemBase.v_forca_base) by reflexivity.
    cbn. split; [discriminate | intros (fb' & d' & E & _ & Hr & _); inversion E; lia]. }
  cbn.
  destruct (Z.ltb_spec 10 (fb + d)); cbn.
  - split; [intros _; exists fb, d; repeat split; lia | reflexivity].
  - split; [discriminate |].
    intros (fb' & d' & E1 & E2 & _ & _ & Hs). inversion E1; inversion E2; lia.
Qed.

(** X4.  Over all requests: the zero-attribute error is reported exactly
    when defense is supplied as 0 and strength is 0, supplied or defaulted.
    A defense left out is never checked, whatever the strength. *)
Theorem no_attribute_reported_iff (i : ItemMagicoBase.input) :
  reports NoAttribute (snd (ItemMagicoBase.validate_model i)) = true
  <-> ItemMagicoBase.in_defesa i = Given 0
      /\ (ItemMagicoBase.in_forca i = Given 0 \/ ItemMagicoBase.in_forca i = Absent).
Proof.
  destruct i as [rn rty rf rd].
  unfold ItemMagicoBase.validate_model; cbv zeta.
  rewrite !reports_record_field.
  cbn [ItemMagicoBase.in_nome ItemMagicoBase.in_tipo ItemMagicoBase.in_forca
       ItemMagicoBase.in_defesa].
  rewrite !plain_field_error by (unfold business_error; auto).
  cbn [reports existsb snd orb fst].
  set (st2 := Pydantic.record_field f_tipo ItemMagicoBase.set_tipo _ _).
  assert (Hnone : ItemMagicoBase.v_forca (fst st2) = None).
  { subst st2. rewrite !(record_field_keeps ItemMagicoBase.v_forca) by reflexivity.
    reflexivity. }
  destruct rf as [| |f]; destruct rd as [| |d];
    cbn [Pydantic.validate_field Pydantic.record_field fst orb
         Pydantic.apply_validators ItemMagicoBase.set_forca ItemMagicoBase.v_forca
         ItemMagicoBase.v_tipo];
    unfold Pydantic.conint, ItemMagicoBase.validar_forca_arma,
      ItemMagicoBase.validar_defesa_armadura, ItemMagicoBase.validar_item_com_atributo;
    cbn [Pydantic.record_field fst ItemMagicoBase.set_forca ItemMagicoBase.v_forca
         ItemMagicoBase.v_tipo];
    repeat first
      [ rewrite Hnone
      | progress cbn
      | progress split_tests
      | match goal with
        | |- context [ItemMagicoBase.v_tipo (fst st2)] =>
            destruct (ItemMagicoBase.v_tipo (fst st2)) as [[]|]
        end ];
    (split; [ try discriminate; intros _; subst; auto
            | try reflexivity;
              intros [E [E'|E']]; try discriminate; inversion E; try inversion E'; lia ]).
Qed.

(** ** Creating and fetching *)

Lemma find_key_snoc {A : Type} (key : A -> Z) (l : list A) (x : A) (k : Z) :
  find (fun r => key r =? k) (l ++ [x])
  = match find (fun r => key r =? k) l with
    | Some y => Some y
    | None => if key x =? k then Some x else None
    end.
Proof.
  induction l as [|y l IH]; simpl; [reflexivity|].
  destruct (key y =? k); [reflexivity | exact IH].
Qed.

Lemma find_key_absent {A : Type} (key : A -> Z) (l : list A) (k : Z) :
  ~ In k (map key l) -> find (fun r => key r =? k) l = None.
Proof.
  intros Hk. destruct (find _ l) as [y|] eqn:E; [| reflexivity].
  apply (find_key_Some key) in E. destruct E as [Hin <-].
  exfalso. apply Hk. apply in_map. exact Hin.
Qed.

(** X5.  A character request that passes validation is stored exactly
    when its level fits an integer column (level < 2^63): then the table's
    check constraints never refuse it, it gets the key the store assigns, it
    is fetched back by that key, every other key answers as before, and the
    item table is untouched.  With a level of 2^63 or more the insert raises
    OverflowError (a 500) and nothing is stored. *)
Theorem criar_personagem_busca (label : TipoItem -> string) (novo_id : Z)
    (body : PersonagemBase.input) (db : DB) (m : PersonagemBase.t) :
  PersonagemBase.parse body = inl m ->
  ~ In novo_id (map Personagem.id (personagens db)) ->
  let db' := snd (handle label novo_id (POST_personagens body) db) in
  let p := {| Personagem.id := novo_id;
              Personagem.nome := PersonagemBase.nome m;
              Personagem.nome_aventureiro := PersonagemBase.nome_aventureiro m;
              Personagem.classe := PersonagemBase.classe m;
              Personagem.level := PersonagemBase.level m;
              Personagem.forca_base := PersonagemBase.forca_base m;
              Personagem.defesa_base := PersonagemBase.defesa_base m |} in
  (PersonagemBase.level m < 2 ^ 63 ->
     fst (handle label novo_id (POST_personagens body) db)
       = inl (BPersonagem (resposta_personagem p db'))
     /\ buscar_personagem novo_id db' = (inl (BPersonagem (resposta_personagem p db')), db')
     /\ (forall q, q <> novo_id -> query_personagem q db' = query_personagem q db)
     /\ itens_magicos db' = itens_magicos db)
  /\ (2 ^ 63 <= PersonagemBase.level m ->
      handle label novo_id (POST_personagens body) db = (inr OverflowError, db)).
Proof.
  intros Hp Hfresh. simpl. rewrite Hp. unfold criar_personagem.
  destruct (personagem_parse_campos body m Hp)
    as (_ & _ & _ & _ & _ & Hlv & Hfb & Hd & Hsum).
  cbn [Personagem.level Personagem.forca_base Personagem.defesa_base].
  assert (Hcf : coluna_inteira (PersonagemBase.forca_base m) = true)
    by (unfold coluna_inteira; apply andb_true_iff; split;
        [apply Z.leb_le | apply Z.ltb_lt]; lia).
  assert (Hcd : coluna_inteira (PersonagemBase.defesa_base m) = true)
    by (unfold coluna_inteira; apply andb_true_iff; split;
        [apply Z.leb_le | apply Z.ltb_lt]; lia).
  rewrite Hcf, Hcd, !andb_true_r. split.
  - intros Hmax.
    assert (Hcl : coluna_inteira (PersonagemBase.level m) = true)
      by (unfold coluna_inteira; apply andb_true_iff; split;
          [apply Z.leb_le | apply Z.ltb_lt]; lia).
    rewrite Hcl. cbn [negb].
    replace (Personagem.check_constraints _) with true.
    2:{ unfold Personagem.check_constraints. simpl. symmetry.
        rewrite !andb_true_iff, !Z.leb_le. lia. }
    simpl. repeat split.
    + unfold buscar_personagem, query_personagem. simpl.
      rewrite (find_key_snoc Personagem.id).
      rewrite (find_key_absent Personagem.id _ _ Hfresh). simpl.
      rewrite Z.eqb_refl. reflexivity.
    + intros q Hq. unfold query_personagem. simpl.
      rewrite (find_key_snoc Personagem.id). simpl.
      destruct (find _ (personagens db)); [reflexivity|].
      destruct (Z.eqb_spec novo_id q); [congruence | reflexivity].
  - intros Hmax.
    assert (Hcl : coluna_inteira (PersonagemBase.level m) = false)
      by (unfold coluna_inteira; apply andb_false_iff; right; apply Z.ltb_ge; exact Hmax).
    rewrite Hcl. reflexivity.
Qed.

Lemma criar_personagem_busca_witness :
  (exists r,
     buscar_personagem 1
       (snd (handle Amostra.nomes 1 (POST_personagens (Amostra.heroi "Ana" "Zarabatana" 6 4))
               db_vazio))
     = (inl (BPersonagem r),
        snd (handle Amostra.nomes 1 (POST_personagens (Amostra.heroi "Ana" "Zarabatana" 6 4))
               db_vazio))
     /\ Personagem.nome (personagem r) = "Ana"%string)
  /\ handle Amostra.nomes 1 (POST_personagens Cenario.heroi_nivel_enorme) db_vazio
     = (inr OverflowError, db_vazio).
Proof.
  split.
  - eexists. split.
    + refine (proj1 (proj2 (proj1 (criar_personagem_busca Amostra.nomes 1
                (Amostra.heroi "Ana" "Zarabatana" 6 4) db_vazio _ eq_refl _) _))).
      * simpl. tauto.
      * simpl. reflexivity.
    + reflexivity.
  - refine (proj2 (criar_personagem_busca Amostra.nomes 1
              Cenario.heroi_nivel_enorme db_vazio _ eq_refl _) _).
    + simpl. tauto.
    + simpl. discriminate.
Defined.

(** X6.  An item the create route answers with is stored under the key
    the store assigns, without an owner; it is fetched back by that key, every
    other key answers as before, and no character's inventory changes. *)
Theorem criar_item_magico_busca (label : TipoItem -> string) (novo_id : Z)
    (body : ItemMagicoBase.input) (db : DB) (it : ItemMagico.t) :
  fst (handle label novo_id (POST_itens_magicos body) db) = inl (BItem it) ->
  ~ In novo_id (map ItemMagico.id (itens_magicos db)) ->
  let db' := snd (handle label novo_id (POST_itens_magicos body) db) in
  ItemMagico.id it = novo_id
  /\ ItemMagico.personagem_id it = None
  /\ buscar_item_magico novo_id db' = (inl (BItem it), db')
  /\ (forall q, q <> novo_id -> query_item q db' = query_item q db)
  /\ personagens db' = personagens db
  /\ (forall pid, itens_de pid db' = itens_de pid db).
Proof.
  simpl. destruct (ItemMagicoBase.parse body) as [m|errs]; [| discriminate].
  unfold criar_item_magico.
  destruct (ItemMagico.check_constraints label _); [| discriminate].
  simpl. intros H Hfresh. inversion H; subst it; clear H. simpl. repeat split.
  - unfold buscar_item_magico, query_item. simpl.
    rewrite (find_key_snoc ItemMagico.id).
    rewrite (find_key_absent ItemMagico.id _ _ Hfresh). simpl.
    rewrite Z.eqb_refl. reflexivity.
  - intros q Hq. unfold query_item. simpl.
    rewrite (find_key_snoc ItemMagico.id). simpl.
    destruct (find _ (itens_magicos db)); [reflexivity|].
    destruct (Z.eqb_spec novo_id q); [congruence | reflexivity].
  - intros pid. unfold itens_de. simpl. rewrite filter_app. simpl.
    apply app_nil_r.
Qed.

Lemma criar_item_magico_busca_witness :
  exists it,
    buscar_item_magico 1 Amostra.so_um_item = (inl (BItem it), Amostra.so_um_item)
    /\ ItemMagico.personagem_id it = None.
Proof.
  pose proof (criar_item_magico_busca Amostra.nomes 1 Amostra.espada db_vazio
                {| ItemMagico.id := 1; ItemMagico.nome := "Espada"; ItemMagico.tipo := ARMA;
                   ItemMagico.forca := 5; ItemMagico.defesa := 0;
                   ItemMagico.personagem_id := None |} eq_refl) as H.
  simpl in H. destruct (H (fun x => x)) as (_ & Hn & Hb & _).
  eexists. split; [exact Hb | exact Hn].
Defined.

(** ** What a request never does *)

(** X7.  A request that is answered with a failure (404, 400, 422 or
    500) leaves both tables exactly as they were. *)
Theorem falha_nao_altera (label : TipoItem -> string) (novo_id : Z) (r : Request)
    (db : DB) (f : Failure) :
  fst (handle label novo_id r db) = inr f ->
  snd (handle label novo_id r db) = db.
Proof.
  destruct r as [body|pid dados| pid | body | pid dados | pid iid]; simpl.
  - destruct (PersonagemBase.parse body); [| reflexivity].
    unfold criar_personagem. destruct (negb _); [reflexivity|].
    destruct (Personagem.check_constraints _); [discriminate | reflexivity].
  - destruct (parse_dados _ dados) as [d|]; [| reflexivity].
    unfold atualizar_nome_aventureiro.
    destruct (query_personagem pid db); [| reflexivity].
    destruct d; [discriminate | reflexivity].
  - unfold remover_personagem.
    destruct (query_personagem pid db); [discriminate | reflexivity].
  - destruct (ItemMagicoBase.parse body); [| reflexivity].
    unfold criar_item_magico. destruct (ItemMagico.check_constraints _ _);
      [discriminate | reflexivity].
  - destruct (parse_dados _ dados) as [d|]; [| reflexivity].
    unfold adicionar_item_personagem.
    destruct (query_personagem pid db); [| reflexivity].
    destruct d as [iid|]; [| reflexivity].
    destruct (query_item iid db) as [item|]; [| reflexivity].
    destruct (match ItemMagico.personagem_id item with
              | Some dono => negb (dono =? pid) | None => false end); [reflexivity|].
    destruct (TipoItem_eqb _ _ && _); [reflexivity | discriminate].
  - unfold remover_item_do_personagem.
    destruct (query_personagem pid db); [| reflexivity].
    destruct (find _ _); [discriminate | reflexivity].
Qed.

Lemma falha_nao_altera_witness :
  snd (handle Amostra.nomes 0 (POST_adicionar_item 1 (Some (Given 2)))
         Amostra.cada_um_com_seu_amuleto)
  = Amostra.cada_um_com_seu_amuleto.
Proof.
  apply (falha_nao_altera Amostra.nomes 0 (POST_adicionar_item 1 (Some (Given 2)))
           Amostra.cada_um_com_seu_amuleto AlreadyOwned).
  reflexivity.
Defined.

Lemma map_colunas_fixas (g : ItemMagico.t -> ItemMagico.t) (l : list ItemMagico.t) :
  (forall x, colunas_fixas (g x) = colunas_fixas x) ->
  map colunas_fixas (map g l) = map colunas_fixas l.
Proof. intros Hg. rewrite map_map. apply map_ext. exact Hg. Qed.

Lemma colunas_fixas_update (key : Z) (o : option Z) (x : ItemMagico.t) :
  colunas_fixas (if ItemMagico.id x =? key then ItemMagico.with_personagem_id o x else x)
  = colunas_fixas x.
Proof. destruct (ItemMagico.id x =? key); reflexivity. Qed.

(** The item table after a request: the old rows in place, with their
    fixed columns, followed by the row a successful create added. *)
Lemma handle_colunas_fixas (label : TipoItem -> string) (novo_id : Z) (r : Request)
    (db : DB) :
  exists novos,
    map colunas_fixas (itens_magicos (snd (handle label novo_id r db)))
    = map colunas_fixas (itens_magicos db) ++ novos
    /\ (novos = []
        \/ exists body it, r = POST_itens_magicos body
             /\ fst (handle label novo_id r db) = inl (BItem it)
             /\ novos = [colunas_fixas it]).
Proof.
  destruct r as [body|pid dados| pid | body | pid dados | pid iid]; simpl.
  - exists []. rewrite app_nil_r. split; [| left; reflexivity].
    destruct (PersonagemBase.parse body); [| reflexivity].
    unfold criar_personagem. destruct (negb _); [reflexivity|].
    destruct (Personagem.check_constraints _); reflexivity.
  - exists []. rewrite app_nil_r. split; [| left; reflexivity].
    destruct (parse_dados _ dados) as [d|]; [| reflexivity].
    unfold atualizar_nome_aventureiro.
    destruct (query_personagem pid db); [| reflexivity].
    destruct d; reflexivity.
  - exists []. rewrite app_nil_r. split; [| left; reflexivity].
    unfold remover_personagem.
    destruct (query_personagem pid db) as [p|]; [| reflexivity].
    simpl. apply map_colunas_fixas.
    intros x. destruct (ItemMagico.owned_by _ x); reflexivity.
  - destruct (ItemMagicoBase.parse body) as [m|] eqn:Ep;
      [| exists []; rewrite app_nil_r; split; [reflexivity | left; reflexivity]].
    unfold criar_item_magico.
    destruct (ItemMagico.check_constraints label _) eqn:Ec;
      [| exists []; rewrite app_nil_r; split; [reflexivity | left; reflexivity]].
    simpl. eexists. rewrite map_app. split; [reflexivity|].
    right. exists body. eexists. split; [reflexivity|]. split; reflexivity.
  - exists []. rewrite app_nil_r. split; [| left; reflexivity].
    destruct (parse_dados _ dados) as [d|]; [| reflexivity].
    unfold adicionar_item_personagem.
    destruct (query_personagem pid db); [| reflexivity].
    destruct d as [iid|]; [| reflexivity].
    destruct (query_item iid db) as [item|]; [| reflexivity].
    destruct (match ItemMagico.personagem_id item with
              | Some dono => negb (dono =? pid) | None => false end); [reflexivity|].
    destruct (TipoItem_eqb _ _ && _); [reflexivity|].
    simpl. apply map_colunas_fixas. intros x. apply colunas_fixas_update.
  - exists []. rewrite app_nil_r. split; [| left; reflexivity].
    unfold remover_item_do_personagem.
    destruct (query_personagem pid db); [| reflexivity].
    destruct (find _ _); [| reflexivity].
    simpl. apply map_colunas_fixas. intros x. apply colunas_fixas_update.
Qed.

(** A row fetched by its id from a table is fetched from any table that
    extends it with the fixed columns kept. *)
Lemma query_item_colunas_fixas (l l' : list ItemMagico.t)
    (novos : list (Z * string * TipoItem * Z * Z)) (k : Z) (x : ItemMagico.t) :
  map colunas_fixas l' = map colunas_fixas l ++ novos ->
  find (fun i => ItemMagico.id i =? k) l = Some x ->
  exists x', find (fun i => ItemMagico.id i =? k) l' = Some x'
             /\ colunas_fixas x' = colunas_fixas x.
Proof.
  revert l'. induction l as [|y l IH]; intros l' E Hf; [discriminate Hf|].
  destruct l' as [|y' l']; [discriminate E|].
  simpl in E.
  assert (Ey : colunas_fixas y' = colunas_fixas y)
    by (exact (f_equal (hd (colunas_fixas y)) E)).
  assert (El : map colunas_fixas l' = map colunas_fixas l ++ novos)
    by (exact (f_equal (@tl _) E)).
  simpl in Hf |- *.
  assert (Eid : ItemMagico.id y' = ItemMagico.id y)
    by (unfold colunas_fixas in Ey; congruence).
  rewrite Eid. destruct (ItemMagico.id y =? k).
  - inversion Hf; subst x. exists y'. split; [reflexivity | exact Ey].
  - apply IH; assumption.
Qed.

(** X8.  No request deletes an item or rewrites its id, name, type,
    strength or defense: after any request the item table holds the old rows,
    in place and with those columns intact, followed by at most one new row
    (the one a successful create-item answered with); so an item that could be
    fetched by its id before the request is fetched after it, with the same
    name, type and attributes. *)
Theorem itens_nunca_removidos (label : TipoItem -> string) (novo_id : Z) (r : Request)
    (db : DB) :
  (exists novos,
     map colunas_fixas (itens_magicos (snd (handle label novo_id r db)))
     = map colunas_fixas (itens_magicos db) ++ novos
     /\ (novos = []
         \/ exists body it, r = POST_itens_magicos body
              /\ fst (handle label novo_id r db) = inl (BItem it)
              /\ novos = [colunas_fixas it]))
  /\ (forall iid item,
        buscar_item_magico iid db = (inl (BItem item), db) ->
        exists item',
          fst (buscar_item_magico iid (snd (handle label novo_id r db))) = inl (BItem item')
          /\ colunas_fixas item' = colunas_fixas item).
Proof.
  pose proof (handle_colunas_fixas label novo_id r db) as Hcols.
  split; [exact Hcols|].
  destruct Hcols as [novos [E _]].
  intros iid item. unfold buscar_item_magico, query_item.
  destruct (find _ (itens_magicos db)) as [x|] eqn:Ef; intros H; inversion H; subst x.
  destruct (query_item_colunas_fixas _ _ novos iid item E Ef) as [x' [Ef' Ex']].
  exists x'. rewrite Ef'. split; [reflexivity | exact Ex'].
Qed.

Lemma itens_nunca_removidos_witness :
  exists item',
    fst (buscar_item_magico 1
           (snd (handle Amostra.nomes 0 (DELETE_personagem 1)
                   Amostra.cada_um_com_seu_amuleto))) = inl (BItem item')
    /\ ItemMagico.nome item' = "Olho"%string.
Proof.
  destruct (proj2 (itens_nunca_removidos Amostra.nomes 0 (DELETE_personagem 1)
                     Amostra.cada_um_com_seu_amuleto) 1 _ eq_refl) as [x [Hx Hc]].
  exists x. split; [exact Hx|].
  unfold colunas_fixas in Hc. simpl in Hc. congruence.
Defined.

Lemma donos_existem_handle (label : TipoItem -> string) (novo_id : Z) (r : Request)
    (db : DB) :
  donos_existem db -> donos_existem (snd (handle label novo_id r db)).
Proof.
  intros Hd.
  destruct r as [body|pid dados| pid | body | pid dados | pid iid]; simpl.
  - destruct (PersonagemBase.parse body); [| exact Hd].
    unfold criar_personagem. destruct (negb _); [exact Hd|].
    destruct (Personagem.check_constraints _); [| exact Hd].
    intros i dono Hin Ho. simpl in *. rewrite map_app. apply in_or_app. left.
    exact (Hd i dono Hin Ho).
  - destruct (parse_dados _ dados) as [d|]; [| exact Hd].
    unfold atualizar_nome_aventureiro.
    destruct (query_personagem pid db) as [p|]; [| exact Hd].
    destruct d as [n|]; [| exact Hd].
    intros i dono Hin Ho. simpl in *.
    rewrite (map_key_map Personagem.id); [exact (Hd i dono Hin Ho)|].
    intros q. destruct (Personagem.id q =? Personagem.id p); reflexivity.
  - unfold remover_personagem.
    destruct (query_personagem pid db) as [p|]; [| exact Hd].
    intros i dono Hin Ho. simpl in *.
    apply in_map_iff in Hin. destruct Hin as [i0 [<- Hin]].
    destruct (ItemMagico.owned_by (Personagem.id p) i0) eqn:E; [discriminate Ho|].
    pose proof (Hd i0 dono Hin Ho) as Hq.
    apply in_map_iff in Hq. destruct Hq as [q [Eq Hq]].
    apply in_map_iff. exists q. split; [exact Eq|].
    apply filter_In. split; [exact Hq|].
    apply negb_true_iff. apply Z.eqb_neq. intros Epq.
    assert (ItemMagico.owned_by (Personagem.id p) i0 = true)
      by (apply owned_by_Some; congruence).
    congruence.
  - destruct (ItemMagicoBase.parse body); [| exact Hd].
    unfold criar_item_magico. destruct (ItemMagico.check_constraints _ _); [| exact Hd].
    intros i dono Hin Ho. simpl in *. apply in_app_iff in Hin.
    destruct Hin as [Hin | [<- | []]]; [exact (Hd i dono Hin Ho) | discriminate Ho].
  - destruct (parse_dados _ dados) as [d|]; [| exact Hd].
    unfold adicionar_item_personagem.
    destruct (query_personagem pid db) as [p|] eqn:Eqp; [| exact Hd].
    destruct d as [iid|]; [| exact Hd].
    destruct (query_item iid db) as [item|]; [| exact Hd].
    destruct (match ItemMagico.personagem_id item with
              | Some dono => negb (dono =? pid) | None => false end); [exact Hd|].
    destruct (TipoItem_eqb _ _ && _); [exact Hd|].
    intros i dono Hin Ho. simpl in *.
    apply in_map_iff in Hin. destruct Hin as [i0 [<- Hin]].
    destruct (ItemMagico.id i0 =? ItemMagico.id item).
    + simpl in Ho. inversion Ho; subst dono.
      apply (find_key_Some Personagem.id) in Eqp. apply in_map. tauto.
    + exact (Hd i0 dono Hin Ho).
  - unfold remover_item_do_personagem.
    destruct (query_personagem pid db); [| exact Hd].
    destruct (find _ _) as [item|]; [| exact Hd].
    intros i dono Hin Ho. simpl in *.
    apply in_map_iff in Hin. destruct Hin as [i0 [<- Hin]].
    destruct (ItemMagico.id i0 =? ItemMagico.id item); [discriminate Ho|].
    exact (Hd i0 dono Hin Ho).
Qed.

Lemma reachable_donos_existem (label : TipoItem -> string) (db : DB) :
  reachable label db -> donos_existem db.
Proof.
  induction 1 as [| db novo_id r _ IH _]; [intros i dono [] |].
  apply donos_existem_handle. exact IH.
Qed.

(** X9.  In every reachable state the owner recorded on an item is a
    character of the table: listing that character's items, or fetching the
    character, never meets an item whose owner is gone. *)
Theorem dono_sempre_existe (label : TipoItem -> string) (db : DB)
    (i : ItemMagico.t) (dono : Z) :
  reachable label db ->
  In i (itens_magicos db) ->
  ItemMagico.personagem_id i = Some dono ->
  exists p, buscar_personagem dono db = (inl (BPersonagem (resposta_personagem p db)), db)
            /\ In i (r_itens_magicos (resposta_personagem p db)).
Proof.
  intros Hr Hin Ho.
  pose proof (reachable_donos_existem label db Hr i dono Hin Ho) as Hd.
  unfold buscar_personagem.
  destruct (query_personagem dono db) as [p|] eqn:E.
  - exists p. split; [reflexivity|].
    apply query_personagem_id in E. simpl. unfold itens_de.
    apply filter_In. split; [exact Hin|]. rewrite E. apply owned_by_Some. exact Ho.
  - exfalso. apply in_map_iff in Hd. destruct Hd as [q [Eq Hq]].
    apply (find_none _ _ E) in Hq. apply Z.eqb_neq in Hq. contradiction.
Qed.

Lemma dono_sempre_existe_witness :
  exists p, fst (buscar_personagem 1 Amostra.ana_com_amuleto)
            = inl (BPersonagem (resposta_personagem p Amostra.ana_com_amuleto)).
Proof.
  destruct (dono_sempre_existe Amostra.nomes Amostra.ana_com_amuleto
              {| ItemMagico.id := 1; ItemMagico.nome := "Olho"; ItemMagico.tipo := AMULETO;
                 ItemMagico.forca := 1; ItemMagico.defesa := 1;
                 ItemMagico.personagem_id := Some 1 |} 1
              reachable_ana_com_amuleto (or_introl eq_refl) eq_refl) as [p [Hp _]].
  exists p. rewrite Hp. reflexivity.
Defined.

(** ** Derived totals and the amulet of a character *)

Lemma criar_item_magico_intervalo (label : TipoItem -> string) (novo_id : Z)
    (body : ItemMagicoBase.input) (db : DB) (it : ItemMagico.t) :
  fst (handle label novo_id (POST_itens_magicos body) db) = inl (BItem it) ->
  0 <= ItemMagico.forca it <= 10 /\ 0 <= ItemMagico.defesa it <= 10.
Proof.
  simpl. destruct (ItemMagicoBase.parse body) as [m|]; [| discriminate].
  unfold criar_item_magico.
  destruct (ItemMagico.check_constraints label _) eqn:Ec; [| discriminate].
  simpl. intros H. inversion H; subst it; clear H.
  unfold ItemMagico.check_constraints in Ec.
  repeat (apply andb_true_iff in Ec; destruct Ec as [Ec ?]).
  repeat match goal with
         | H : (_ <=? _) && (_ <=? _) = true |- _ =>
             apply andb_true_iff in H; destruct H
         | H : (_ <=? _) = true |- _ => apply Z.leb_le in H
         end.
  lia.
Qed.

Lemma reachable_atributos_no_intervalo (label : TipoItem -> string) (db : DB) :
  reachable label db -> atributos_no_intervalo db.
Proof.
  induction 1 as [| db novo_id r _ IH _]; [intros i [] |].
  intros i Hin.
  destruct (handle_colunas_fixas label novo_id r db) as [novos [E Hn]].
  apply (in_map colunas_fixas) in Hin. rewrite E in Hin.
  apply in_app_iff in Hin. destruct Hin as [Hin|Hin].
  - apply in_map_iff in Hin. destruct Hin as [i0 [E0 Hin0]].
    assert (Ef : ItemMagico.forca i0 = ItemMagico.forca i)
      by (unfold colunas_fixas in E0; congruence).
    assert (Ed : ItemMagico.defesa i0 = ItemMagico.defesa i)
      by (unfold colunas_fixas in E0; congruence).
    rewrite <- Ef, <- Ed. apply IH. exact Hin0.
  - destruct Hn as [-> | (body & it & -> & Hresp & ->)]; [contradiction|].
    destruct Hin as [E0 | []].
    assert (Ef : ItemMagico.forca it = ItemMagico.forca i)
      by (unfold colunas_fixas in E0; congruence).
    assert (Ed : ItemMagico.defesa it = ItemMagico.defesa i)
      by (unfold colunas_fixas in E0; congruence).
    rewrite <- Ef, <- Ed.
    exact (criar_item_magico_intervalo label novo_id body db it Hresp).
Qed.

Lemma soma_limitada (l : list Z) :
  (forall x, In x l -> 0 <= x <= 10) ->
  0 <= soma l <= 10 * Z.of_nat (List.length l).
Proof.
  induction l as [|x l IH]; intros Hall; [simpl; lia|].
  assert (Hx : 0 <= x <= 10) by (apply Hall; left; reflexivity).
  assert (Hl : 0 <= soma l <= 10 * Z.of_nat (List.length l))
    by (apply IH; intros y Hy; apply Hall; right; exact Hy).
  change (soma (x :: l)) with (x + soma l).
  change (List.length (x :: l)) with (S (List.length l)).
  rewrite Nat2Z.inj_succ. lia.
Qed.

(** X10.  In every reachable state the totals a character is answered
    with are the model's [forca_total] / [defesa_total], and items only add:
    each total is at least the base attribute and at most the base plus 10
    per owned item. *)
Theorem totais_limitados (label : TipoItem -> string) (db : DB) (pid : Z)
    (p : Personagem.t) :
  reachable label db ->
  query_personagem pid db = Some p ->
  exists r,
    buscar_personagem pid db = (inl (BPersonagem r), db)
    /\ forca_total r = Personagem_forca_total p db
    /\ defesa_total r = Personagem_defesa_total p db
    /\ Personagem.forca_base p <= forca_total r
       <= Personagem.forca_base p + 10 * Z.of_nat (List.length (r_itens_magicos r))
    /\ Personagem.defesa_base p <= defesa_total r
       <= Personagem.defesa_base p + 10 * Z.of_nat (List.length (r_itens_magicos r)).
Proof.
  intros Hr Eqp. pose proof (reachable_atributos_no_intervalo label db Hr) as Hint.
  unfold buscar_personagem. rewrite Eqp. eexists. split; [reflexivity|].
  unfold resposta_personagem. cbn [forca_total defesa_total r_itens_magicos].
  split; [reflexivity|]. split; [reflexivity|].
  assert (Hf : 0 <= soma (map ItemMagico.forca (itens_de (Personagem.id p) db))
               <= 10 * Z.of_nat (List.length (itens_de (Personagem.id p) db))).
  { rewrite <- (length_map ItemMagico.forca). apply soma_limitada.
    intros x Hx. apply in_map_iff in Hx. destruct Hx as [i [<- Hi]].
    apply filter_In in Hi. apply (Hint i). tauto. }
  assert (Hd : 0 <= soma (map ItemMagico.defesa (itens_de (Personagem.id p) db))
               <= 10 * Z.of_nat (List.length (itens_de (Personagem.id p) db))).
  { rewrite <- (length_map ItemMagico.defesa). apply soma_limitada.
    intros x Hx. apply in_map_iff in Hx. destruct Hx as [i [<- Hi]].
    apply filter_In in Hi. apply (Hint i). tauto. }
  lia.
Qed.

Lemma totais_limitados_witness :
  exists r, buscar_personagem 1 Amostra.ana_com_amuleto
            = (inl (BPersonagem r), Amostra.ana_com_amuleto)
            /\ 6 <= forca_total r <= 16.
Proof.
  destruct (totais_limitados Amostra.nomes Amostra.ana_com_amuleto 1 _
              reachable_ana_com_amuleto eq_refl) as (r & Hb & _ & _ & Hf & _).
  exists r. split; [exact Hb|].
  inversion Hb; subst r. simpl in Hf |- *. lia.
Defined.

Lemma find_filter_head {A : Type} (f g : A -> bool) (l : list A) :
  find (fun x => f x && g x) l
  = match filter g (filter f l) with
    | [] => None
    | a :: _ => Some a
    end.
Proof.
  induction l as [|x l IH]; simpl; [reflexivity|].
  destruct (f x); simpl; [| exact IH].
  destruct (g x); [reflexivity | exact IH].
Qed.

(** With the invariant, the Amulet query returns THE Amulet of the
    character. *)
Lemma wf_query_amuleto (db : DB) (pid : Z) (a : ItemMagico.t) :
  wf db -> In a (itens_magicos db) ->
  ItemMagico.tipo a = AMULETO -> ItemMagico.personagem_id a = Some pid ->
  query_amuleto pid db = Some a.
Proof.
  intros Hwf Hin Ht Ho.
  destruct (query_amuleto pid db) as [e|] eqn:E.
  - apply query_amuleto_Some in E. destruct E as (He & Hoe & Hte).
    f_equal.
    pose proof (wf_amuleto _ Hwf e a pid He Hin Hte Ht Hoe Ho) as Eid.
    pose proof (find_key_NoDup ItemMagico.id _ a (wf_chaves_itens _ Hwf) Hin) as Fa.
    pose proof (find_key_NoDup ItemMagico.id _ e (wf_chaves_itens _ Hwf) He) as Fe.
    rewrite Eid in Fe. congruence.
  - exfalso. exact (query_amuleto_None _ _ _ E Hin Ht Ho).
Qed.

(** X11.  The amulet route and the model's [amuleto] property agree in
    every state.  In a reachable state the route answers with the character's
    Amulet whenever it owns one (there is no other to pick), and with the 404
    "has no amulet" exactly when it owns none. *)
Theorem amuleto_do_personagem (label : TipoItem -> string) (db : DB) (pid : Z)
    (p : Personagem.t) :
  reachable label db ->
  query_personagem pid db = Some p ->
  query_amuleto pid db = Personagem_amuleto p db
  /\ (forall a, In a (itens_magicos db) -> ItemMagico.tipo a = AMULETO ->
        ItemMagico.personagem_id a = Some pid ->
        buscar_amuleto_personagem pid db = (inl (BItem a), db))
  /\ (buscar_amuleto_personagem pid db
        = (inr (HTTPException 404 PersonagemNaoPossuiAmuleto), db)
      <-> forall a, In a (itens_magicos db) -> ItemMagico.tipo a = AMULETO ->
            ItemMagico.personagem_id a <> Some pid).
Proof.
  intros Hr Eqp. pose proof (reachable_wf _ _ Hr) as Hwf.
  pose proof (query_personagem_id _ _ _ Eqp) as Ep.
  split; [| split].
  - unfold query_amuleto, Personagem_amuleto, itens_de. rewrite Ep.
    apply find_filter_head.
  - intros a Hin Ht Ho. unfold buscar_amuleto_personagem. rewrite Eqp.
    rewrite (wf_query_amuleto db pid a Hwf Hin Ht Ho). reflexivity.
  - unfold buscar_amuleto_personagem. rewrite Eqp.
    destruct (query_amuleto pid db) as [e|] eqn:E; split.
    + intros H. discriminate H.
    + intros Hnone. exfalso. apply query_amuleto_Some in E.
      destruct E as (He & Hoe & Hte). exact (Hnone e He Hte Hoe).
    + intros _ a Hin Ht. exact (query_amuleto_None _ _ _ E Hin Ht).
    + reflexivity.
Qed.

Lemma amuleto_do_personagem_witness :
  query_amuleto 1 Amostra.ana_com_amuleto
  = Personagem_amuleto
      {| Personagem.id := 1; Personagem.nome := "Ana";
         Personagem.nome_aventureiro := "Zarabatana"; Personagem.classe := MAGO;
         Personagem.level := 1; Personagem.forca_base := 6;
         Personagem.defesa_base := 4 |} Amostra.ana_com_amuleto.
Proof.
  apply (proj1 (amuleto_do_personagem Amostra.nomes Amostra.ana_com_amuleto 1 _
                  reachable_ana_com_amuleto eq_refl)).
Defined.

(** ** How attaching and detaching compose *)

(** The successful path of [adicionar_item_personagem]. *)
Lemma adicionar_item_sucesso (db : DB) (pid iid : Z) (p : Personagem.t)
    (item : ItemMagico.t) :
  query_personagem pid db = Some p ->
  query_item iid db = Some item ->
  (forall dono, ItemMagico.personagem_id item = Some dono -> dono = pid) ->
  (ItemMagico.tipo item = AMULETO -> query_amuleto pid db = None) ->
  adicionar_item_personagem pid (Some iid) db
  = (inl (BPersonagem
            (resposta_personagem p
               (update_item iid (ItemMagico.with_personagem_id (Some pid)) db))),
     update_item iid (ItemMagico.with_personagem_id (Some pid)) db).
Proof.
  intros Eqp Eqi Hdono Hamu.
  pose proof (query_personagem_id _ _ _ Eqp) as Ep.
  pose proof (query_item_id _ _ _ Eqi) as [_ Ei].
  unfold adicionar_item_personagem. rewrite Eqp, Eqi.
  replace (match ItemMagico.personagem_id item with
           | Some dono => negb (dono =? pid) | None => false end) with false.
  2:{ destruct (ItemMagico.personagem_id item) as [dono|]; [| reflexivity].
      rewrite (Hdono dono eq_refl), Z.eqb_refl. reflexivity. }
  replace (TipoItem_eqb (ItemMagico.tipo item) AMULETO
           && match query_amuleto pid db with
              | Some e => negb (ItemMagico.id e =? ItemMagico.id item)
              | None => false
              end) with false.
  2:{ destruct (TipoItem_eqb (ItemMagico.tipo item) AMULETO) eqn:Et; [| reflexivity].
      apply TipoItem_eqb_eq in Et. rewrite (Hamu Et). reflexivity. }
  rewrite Ep, Ei. reflexivity.
Qed.

(** The successful path of [remover_item_do_personagem]. *)
Lemma remover_item_sucesso (db : DB) (pid iid : Z) (p : Personagem.t)
    (item : ItemMagico.t) :
  wf db ->
  query_personagem pid db = Some p ->
  query_item iid db = Some item ->
  ItemMagico.personagem_id item = Some pid ->
  remover_item_do_personagem pid iid db
  = (inl (BMensagem (ItemRemovido iid pid)),
     update_item iid (ItemMagico.with_personagem_id None) db).
Proof.
  intros Hwf Eqp Eqi Ho.
  pose proof (query_item_id _ _ _ Eqi) as [Hin Hid].
  unfold remover_item_do_personagem. rewrite Eqp.
  destruct (find (fun i => (ItemMagico.id i =? iid) && ItemMagico.owned_by pid i)
                 (itens_magicos db)) as [found|] eqn:Ef.
  - apply find_some in Ef. destruct Ef as [_ Hf].
    apply andb_true_iff in Hf. destruct Hf as [Hfid _].
    apply Z.eqb_eq in Hfid. rewrite Hfid. reflexivity.
  - exfalso. apply (find_none _ _ Ef) in Hin. apply owned_by_Some in Ho.
    rewrite Ho, Hid, Z.eqb_refl in Hin. discriminate Hin.
Qed.

Lemma query_item_update (db : DB) (key j : Z) (o : option Z) :
  query_item j (update_item key (ItemMagico.with_personagem_id o) db)
  = option_map (fun i => if ItemMagico.id i =? key
                         then ItemMagico.with_personagem_id o i else i)
               (query_item j db).
Proof.
  unfold query_item, update_item. simpl. apply (find_key_map ItemMagico.id).
  intros r. destruct (ItemMagico.id r =? key); reflexivity.
Qed.

(** Setting the owner of the one row of key [id item] adds that row's
    measure to the owner's sum. *)
Lemma soma_update_item (h : ItemMagico.t -> Z) (l : list ItemMagico.t)
    (item : ItemMagico.t) (pid : Z) :
  (forall o x, h (ItemMagico.with_personagem_id o x) = h x) ->
  NoDup (map ItemMagico.id l) -> In item l ->
  ItemMagico.personagem_id item = None ->
  soma (map h (filter (ItemMagico.owned_by pid)
                 (map (fun i => if ItemMagico.id i =? ItemMagico.id item
                                then ItemMagico.with_personagem_id (Some pid) i else i) l)))
  = soma (map h (filter (ItemMagico.owned_by pid) l)) + h item.
Proof.
  intros Hh. induction l as [|y l IH]; intros Hnd Hin Ho; [contradiction|].
  inversion Hnd as [|? ? Hnotin Hnd']; subst.
  simpl map at 2.
  destruct Hin as [-> | Hin].
  - rewrite Z.eqb_refl.
    rewrite (update_same ItemMagico.id).
    2:{ intros r Hr Er. exfalso. apply Hnotin. rewrite <- Er. apply in_map. exact Hr. }
    assert (H1 : ItemMagico.owned_by pid
                   (ItemMagico.with_personagem_id (Some pid) item) = true)
      by (apply owned_by_Some; reflexivity).
    assert (H2 : ItemMagico.owned_by pid item = false)
      by (unfold ItemMagico.owned_by; rewrite Ho; reflexivity).
    cbn [filter]. rewrite H1, H2. cbn [map]. rewrite Hh.
    change (soma (?a :: ?b)) with (a + soma b). lia.
  - destruct (Z.eqb_spec (ItemMagico.id y) (ItemMagico.id item)) as [E|E].
    + exfalso. apply Hnotin. rewrite E. apply in_map. exact Hin.
    + simpl. destruct (ItemMagico.owned_by pid y); simpl.
      * change (soma (?a :: ?b)) with (a + soma b).
        rewrite (IH Hnd' Hin Ho). lia.
      * apply IH; assumption.
Qed.

(** X12.  Attaching an unowned item to an existing character that has
    no Amulet yet (or when the item is not an Amulet) succeeds: the item gets
    that owner, every other item and every character is as before, and the
    character's total strength and defense grow by exactly the item's. *)
Theorem adicionar_item_livre (label : TipoItem -> string) (db : DB) (pid iid : Z)
    (p : Personagem.t) (item : ItemMagico.t) :
  reachable label db ->
  query_personagem pid db = Some p ->
  query_item iid db = Some item ->
  ItemMagico.personagem_id item = None ->
  (ItemMagico.tipo item = AMULETO -> query_amuleto pid db = None) ->
  let db' := snd (adicionar_item_personagem pid (Some iid) db) in
  fst (adicionar_item_personagem pid (Some iid) db)
    = inl (BPersonagem (resposta_personagem p db'))
  /\ forca_total (resposta_personagem p db')
     = forca_total (resposta_personagem p db) + ItemMagico.forca item
  /\ defesa_total (resposta_personagem p db')
     = defesa_total (resposta_personagem p db) + ItemMagico.defesa item
  /\ query_item iid db' = Some (ItemMagico.with_personagem_id (Some pid) item)
  /\ (forall j, j <> iid -> query_item j db' = query_item j db)
  /\ personagens db' = personagens db.
Proof.
  intros Hr Eqp Eqi Ho Hamu. pose proof (reachable_wf _ _ Hr) as Hwf.
  pose proof (query_personagem_id _ _ _ Eqp) as Ep.
  pose proof (query_item_id _ _ _ Eqi) as [Hin Ei].
  rewrite (adicionar_item_sucesso db pid iid p item Eqp Eqi).
  2:{ intros dono Hd. congruence. }
  2:{ exact Hamu. }
  cbn [fst snd]. split; [reflexivity|].
  unfold resposta_personagem. cbn [forca_total defesa_total].
  unfold itens_de, update_item. cbn [itens_magicos]. rewrite Ep, <- Ei.
  rewrite (soma_update_item ItemMagico.forca) by
    (try reflexivity; try exact (wf_chaves_itens _ Hwf); assumption).
  rewrite (soma_update_item ItemMagico.defesa) by
    (try reflexivity; try exact (wf_chaves_itens _ Hwf); assumption).
  split; [lia|]. split; [lia|]. split; [| split; [| reflexivity]].
  - fold (update_item (ItemMagico.id item) (ItemMagico.with_personagem_id (Some pid)) db).
    rewrite query_item_update, Ei, Eqi. simpl. rewrite Ei, Z.eqb_refl. reflexivity.
  - intros j Hj.
    fold (update_item (ItemMagico.id item) (ItemMagico.with_personagem_id (Some pid)) db).
    rewrite query_item_update.
    destruct (query_item j db) as [x|] eqn:Ex; [| reflexivity].
    apply query_item_id in Ex. destruct Ex as [_ Ex]. simpl.
    destruct (Z.eqb_spec (ItemMagico.id x) (ItemMagico.id item)); [congruence | reflexivity].
Qed.

Lemma adicionar_item_livre_witness :
  forca_total (resposta_personagem
     {| Personagem.id := 2; Personagem.nome := "Rui"; Personagem.nome_aventureiro := "Corvo";
        Personagem.classe := MAGO; Personagem.level := 1; Personagem.forca_base := 3;
        Personagem.defesa_base := 3 |}
     (snd (adicionar_item_personagem 2 (Some 2) Amostra.ana_com_amuleto)))
  = 3 + 2.
Proof.
  pose proof (adicionar_item_livre Amostra.nomes Amostra.ana_com_amuleto 2 2 _ _
                reachable_ana_com_amuleto eq_refl eq_refl eq_refl (fun _ => eq_refl)) as H.
  cbv zeta in H. destruct H as (_ & Hf & _). exact Hf.
Defined.

(** Two owner updates of the same key in a row: the second restores the
    table when it writes back what the rows held. *)
Lemma update_item_volta (db : DB) (key : Z) (o1 o2 : option Z) :
  (forall r, In r (itens_magicos db) -> ItemMagico.id r = key ->
             ItemMagico.personagem_id r = o2) ->
  update_item key (ItemMagico.with_personagem_id o2)
    (update_item key (ItemMagico.with_personagem_id o1) db) = db.
Proof.
  intros Hrow. destruct db as [ps its]. unfold update_item. simpl in *. f_equal.
  rewrite map_map. rewrite <- (map_id its) at 2. apply map_ext_in.
  intros r Hr. destruct (Z.eqb_spec (ItemMagico.id r) key) as [E|E].
  - simpl. rewrite E, Z.eqb_refl.
    pose proof (Hrow r Hr E) as Ho. destruct r; simpl in *. subst. reflexivity.
  - apply Z.eqb_neq in E. rewrite E. reflexivity.
Qed.

(** Once its Amulet is detached, a character has none. *)
Lemma amuleto_solto (db : DB) (pid : Z) (item : ItemMagico.t) :
  wf db -> In item (itens_magicos db) ->
  ItemMagico.tipo item = AMULETO -> ItemMagico.personagem_id item = Some pid ->
  query_amuleto pid
    (update_item (ItemMagico.id item) (ItemMagico.with_personagem_id None) db) = None.
Proof.
  intros Hwf Hin Ht Ho.
  destruct (query_amuleto pid _) as [e|] eqn:E; [| reflexivity].
  exfalso. apply query_amuleto_Some in E. destruct E as (He & Hoe & Hte).
  simpl in He. apply in_map_iff in He. destruct He as [e0 [<- He0]].
  destruct (Z.eqb_spec (ItemMagico.id e0) (ItemMagico.id item)) as [Eid|Eid].
  - discriminate Hoe.
  - apply Eid. apply (wf_amuleto _ Hwf e0 item pid); assumption.
Qed.

(** X13.  Detaching an item from its owner and attaching it again to the
    same character brings back the very same state, and the second request
    succeeds (for an Amulet too: it does not conflict with itself). *)
Theorem remover_e_readicionar (label : TipoItem -> string) (db : DB) (pid iid : Z)
    (p : Personagem.t) (item : ItemMagico.t) :
  reachable label db ->
  query_personagem pid db = Some p ->
  query_item iid db = Some item ->
  ItemMagico.personagem_id item = Some pid ->
  fst (remover_item_do_personagem pid iid db) = inl (BMensagem (ItemRemovido iid pid))
  /\ adicionar_item_personagem pid (Some iid) (snd (remover_item_do_personagem pid iid db))
     = (inl (BPersonagem (resposta_personagem p db)), db).
Proof.
  intros Hr Eqp Eqi Ho. pose proof (reachable_wf _ _ Hr) as Hwf.
  pose proof (query_item_id _ _ _ Eqi) as [Hin Ei].
  rewrite (remover_item_sucesso db pid iid p item Hwf Eqp Eqi Ho).
  cbn [fst snd]. split; [reflexivity|].
  rewrite (adicionar_item_sucesso _ pid iid p (ItemMagico.with_personagem_id None item)).
  - rewrite update_item_volta; [reflexivity|].
    intros r Hrin Hrid.
    assert (r = item)
      by (apply (find_key_unique ItemMagico.id (itens_magicos db) iid);
          [exact (wf_chaves_itens _ Hwf) | exact Eqi | exact Hrin | exact Hrid]).
    subst r. exact Ho.
  - exact Eqp.
  - rewrite query_item_update, Eqi. simpl. rewrite Ei, Z.eqb_refl. reflexivity.
  - intros dono Hd. discriminate Hd.
  - intros Ht. rewrite <- Ei. apply amuleto_solto; assumption.
Qed.

Lemma remover_e_readicionar_witness :
  snd (adicionar_item_personagem 1 (Some 1)
         (snd (remover_item_do_personagem 1 1 Amostra.ana_com_amuleto)))
  = Amostra.ana_com_amuleto.
Proof.
  apply (f_equal snd
           (proj2 (remover_e_readicionar Amostra.nomes Amostra.ana_com_amuleto 1 1 _ _
                     reachable_ana_com_amuleto eq_refl eq_refl eq_refl))).
Defined.

(** An unowned item whose attach goes through: the character exists and,
    when the item is an Amulet, had none. *)
Lemma adicionar_item_aceito (db : DB) (pid iid : Z) (item : ItemMagico.t) (b : Body) :
  wf db ->
  query_item iid db = Some item ->
  ItemMagico.personagem_id item = None ->
  fst (adicionar_item_personagem pid (Some iid) db) = inl b ->
  (exists p, query_personagem pid db = Some p)
  /\ (ItemMagico.tipo item = AMULETO -> query_amuleto pid db = None).
Proof.
  intros Hwf Eqi Ho. pose proof (query_item_id _ _ _ Eqi) as [Hin Ei].
  unfold adicionar_item_personagem.
  destruct (query_personagem pid db) as [p|]; [| discriminate].
  rewrite Eqi, Ho.
  destruct (TipoItem_eqb (ItemMagico.tipo item) AMULETO) eqn:Et; simpl.
  - destruct (query_amuleto pid db) as [e|] eqn:Eqa.
    + destruct (Z.eqb_spec (ItemMagico.id e) (ItemMagico.id item)) as [Eid|Eid];
        simpl; [| discriminate].
      intros _. exfalso.
      apply query_amuleto_Some in Eqa. destruct Eqa as (He & Hoe & _).
      assert (e = item)
        by (apply (find_key_unique ItemMagico.id (itens_magicos db) iid);
            [exact (wf_chaves_itens _ Hwf) | exact Eqi | exact He | congruence]).
      subst e. congruence.
    + intros _. split; [eauto | reflexivity].
  - intros _. split; [eauto|]. intros Ht.
    apply TipoItem_eqb_eq in Ht. congruence.
Qed.

(** X14.  Whenever attaching an unowned item to a character succeeds,
    detaching it from that character succeeds too and brings back the very
    same state. *)
Theorem adicionar_e_remover (label : TipoItem -> string) (db : DB) (pid iid : Z)
    (item : ItemMagico.t) (b : Body) :
  reachable label db ->
  query_item iid db = Some item ->
  ItemMagico.personagem_id item = None ->
  fst (adicionar_item_personagem pid (Some iid) db) = inl b ->
  remover_item_do_personagem pid iid (snd (adicionar_item_personagem pid (Some iid) db))
  = (inl (BMensagem (ItemRemovido iid pid)), db).
Proof.
  intros Hr Eqi Ho Hok. pose proof (reachable_wf _ _ Hr) as Hwf.
  destruct (adicionar_item_aceito db pid iid item b Hwf Eqi Ho Hok) as [[p Eqp] Hamu].
  pose proof (query_item_id _ _ _ Eqi) as [Hin Ei].
  pose proof (wf_adicionar_item_personagem pid (Some iid) db Hwf) as Hwf1.
  rewrite (adicionar_item_sucesso db pid iid p item Eqp Eqi) in *;
    [| intros dono Hd; congruence | exact Hamu
     | intros dono Hd; congruence | exact Hamu
     | intros dono Hd; congruence | exact Hamu].
  cbn [snd] in *.
  rewrite (remover_item_sucesso _ pid iid p
             (ItemMagico.with_personagem_id (Some pid) item) Hwf1).
  - rewrite update_item_volta; [reflexivity|].
    intros r Hrin Hrid.
    assert (r = item)
      by (apply (find_key_unique ItemMagico.id (itens_magicos db) iid);
          [exact (wf_chaves_itens _ Hwf) | exact Eqi | exact Hrin | exact Hrid]).
    subst r. exact Ho.
  - exact Eqp.
  - rewrite query_item_update, Eqi. simpl. rewrite Ei, Z.eqb_refl. reflexivity.
  - reflexivity.
Qed.

Lemma adicionar_e_remover_witness :
  remover_item_do_personagem 2 2
    (snd (adicionar_item_personagem 2 (Some 2) Amostra.ana_com_amuleto))
  = (inl (BMensagem (ItemRemovido 2 2)), Amostra.ana_com_amuleto).
Proof.
  apply (adicionar_e_remover Amostra.nomes Amostra.ana_com_amuleto 2 2 _ _
           reachable_ana_com_amuleto eq_refl eq_refl eq_refl).
Defined.

(** X15.  Swapping Amulets: while a character wears Amulet A, attaching
    the unowned Amulet B is refused with AmuletConflict; once A is detached
    the same attach succeeds, and the amulet route then answers with B. *)
Theorem trocar_amuleto (label : TipoItem -> string) (db : DB) (pid a b : Z)
    (p : Personagem.t) (A B : ItemMagico.t) :
  reachable label db ->
  query_personagem pid db = Some p ->
  query_item a db = Some A -> ItemMagico.tipo A = AMULETO ->
  ItemMagico.personagem_id A = Some pid ->
  query_item b db = Some B -> ItemMagico.tipo B = AMULETO ->
  ItemMagico.personagem_id B = None ->
  let db1 := snd (remover_item_do_personagem pid a db) in
  let db2 := snd (adicionar_item_personagem pid (Some b) db1) in
  adicionar_item_personagem pid (Some b) db = (inr AmuletConflict, db)
  /\ fst (adicionar_item_personagem pid (Some b) db1)
     = inl (BPersonagem (resposta_personagem p db2))
  /\ buscar_amuleto_personagem pid db2
     = (inl (BItem (ItemMagico.with_personagem_id (Some pid) B)), db2).
Proof.
  intros Hr Eqp EqA HtA HoA EqB HtB HoB. pose proof (reachable_wf _ _ Hr) as Hwf.
  pose proof (query_item_id _ _ _ EqA) as [HinA EA].
  pose proof (query_item_id _ _ _ EqB) as [HinB EB].
  assert (Hab : a <> b) by (intros E; rewrite E in EqA; congruence).
  pose proof (wf_remover_item_do_personagem pid a db Hwf) as Hwf1.
  cbv zeta.
  rewrite (remover_item_sucesso db pid a p A Hwf Eqp EqA HoA) in *. cbn [snd] in *.
  assert (EqB1 : query_item b (update_item a (ItemMagico.with_personagem_id None) db)
                 = Some B).
  { rewrite query_item_update, EqB. simpl.
    destruct (Z.eqb_spec (ItemMagico.id B) a); [congruence | reflexivity]. }
  pose proof (wf_adicionar_item_personagem pid (Some b) _ Hwf1) as Hwf2.
  rewrite (adicionar_item_sucesso
             (update_item a (ItemMagico.with_personagem_id None) db) pid b p B Eqp EqB1) in *;
    try (intros dono Hd; congruence);
    try (intros _; rewrite <- EA; apply amuleto_solto; assumption).
  cbn [fst snd] in *. split; [| split; [reflexivity|]].
  - unfold adicionar_item_personagem. rewrite Eqp, EqB, HoB.
    apply TipoItem_eqb_eq in HtB. rewrite HtB. simpl.
    rewrite (wf_query_amuleto db pid A Hwf HinA HtA HoA).
    rewrite EA, EB. apply Z.eqb_neq in Hab. rewrite Hab. reflexivity.
  - unfold buscar_amuleto_personagem.
    replace (query_personagem pid _) with (Some p) by (symmetry; exact Eqp).
    rewrite (wf_query_amuleto _ pid (ItemMagico.with_personagem_id (Some pid) B) Hwf2);
      [reflexivity | | exact HtB | reflexivity].
    assert (Eq2 : query_item b
              (update_item b (ItemMagico.with_personagem_id (Some pid))
                 (update_item a (ItemMagico.with_personagem_id None) db))
              = Some (ItemMagico.with_personagem_id (Some pid) B)).
    { rewrite query_item_update, EqB1. simpl. rewrite EB, Z.eqb_refl. reflexivity. }
    apply query_item_id in Eq2. tauto.
Qed.

Lemma trocar_amuleto_witness :
  adicionar_item_personagem 1 (Some 2) Amostra.ana_com_amuleto
    = (inr AmuletConflict, Amostra.ana_com_amuleto)
  /\ exists r,
       fst (adicionar_item_personagem 1 (Some 2)
              (snd (remover_item_do_personagem 1 1 Amostra.ana_com_amuleto)))
       = inl (BPersonagem r).
Proof.
  pose proof (trocar_amuleto Amostra.nomes Amostra.ana_com_amuleto 1 1 2 _ _ _
                reachable_ana_com_amuleto eq_refl eq_refl eq_refl eq_refl
                eq_refl eq_refl eq_refl) as H.
  cbv zeta in H. destruct H as (H1 & H2 & _).
  split; [exact H1 | eexists; exact H2].
Defined.

(** ** Deleting and renaming *)

Lemma find_key_filter_ne {A : Type} (key : A -> Z) (l : list A) (k q : Z) :
  q <> k ->
  find (fun r => key r =? q) (filter (fun r => negb (key r =? k)) l)
  = find (fun r => key r =? q) l.
Proof.
  intros Hq. induction l as [|y l IH]; simpl; [reflexivity|].
  destruct (Z.eqb_spec (key y) k) as [E|E]; simpl.
  - destruct (Z.eqb_spec (key y) q); [congruence | exact IH].
  - destruct (key y =? q); [reflexivity | exact IH].
Qed.

Lemma itens_de_remover (l : list ItemMagico.t) (pid q : Z) :
  q <> pid ->
  filter (ItemMagico.owned_by q)
    (map (fun i => if ItemMagico.owned_by pid i
                   then ItemMagico.with_personagem_id None i else i) l)
  = filter (ItemMagico.owned_by q) l.
Proof.
  intros Hq. induction l as [|y l IH]; simpl; [reflexivity|].
  destruct (ItemMagico.owned_by pid y) eqn:E.
  - apply owned_by_Some in E.
    assert (Hn : ItemMagico.owned_by q y = false).
    { unfold ItemMagico.owned_by. rewrite E. apply Z.eqb_neq. congruence. }
    rewrite Hn. cbn. exact IH.
  - destruct (ItemMagico.owned_by q y); [f_equal|]; exact IH.
Qed.

(** X16.  After a character is deleted, every route on its id changes
    nothing and answers 404 "character not found", unless the request carries
    a body that fails validation: that one is answered 422 before the handler
    runs.  Every other character is fetched exactly as before, items and
    totals included. *)
Theorem personagem_removido (db : DB) (pid : Z) (p : Personagem.t) :
  query_personagem pid db = Some p ->
  let db' := snd (remover_personagem pid db) in
  buscar_personagem pid db' = (inr NotFound_Character, db')
  /\ listar_itens_por_personagem pid db' = (inr NotFound_Character, db')
  /\ buscar_amuleto_personagem pid db' = (inr NotFound_Character, db')
  /\ (forall label novo_id r,
        personagem_da_rota r = Some pid ->
        snd (handle label novo_id r db') = db'
        /\ (corpo_valido r = true ->
            fst (handle label novo_id r db') = inr NotFound_Character)
        /\ (corpo_valido r = false ->
            exists errs, fst (handle label novo_id r db') = inr (RequestValidationError errs)))
  /\ (forall q, q <> pid ->
        fst (buscar_personagem q db') = fst (buscar_personagem q db)).
Proof.
  intros Eqp db'. pose proof (query_personagem_id _ _ _ Eqp) as Ep.
  assert (Edb : db' = {| personagens := filter (fun x => negb (Personagem.id x =? pid))
                                               (personagens db);
                         itens_magicos := map (fun i => if ItemMagico.owned_by pid i
                                                        then ItemMagico.with_personagem_id None i
                                                        else i) (itens_magicos db) |}).
  { subst db'. unfold remover_personagem. rewrite Eqp, Ep. reflexivity. }
  clearbody db'.
  assert (Hgone : query_personagem pid db' = None).
  { rewrite Edb. unfold query_personagem. simpl.
    destruct (find _ (filter _ _)) as [q|] eqn:Ef; [| reflexivity].
    apply find_some in Ef. destruct Ef as [Hin Hk].
    apply filter_In in Hin. destruct Hin as [_ Hne].
    rewrite Hk in Hne. discriminate Hne. }
  split; [| split; [| split; [| split]]].
  - unfold buscar_personagem. rewrite Hgone. reflexivity.
  - unfold listar_itens_por_personagem. rewrite Hgone. reflexivity.
  - unfold buscar_amuleto_personagem. rewrite Hgone. reflexivity.
  - intros label novo_id r Hrota.
    destruct r as [body|pid' dados| pid' | body | pid' dados | pid' iid];
      simpl in Hrota; inversion Hrota; subst pid'; simpl.
    + destruct (parse_dados f_nome_aventureiro dados) as [d|errs].
      * unfold atualizar_nome_aventureiro. rewrite Hgone.
        split; [reflexivity | split; [intros _; reflexivity | discriminate]].
      * split; [reflexivity | split; [discriminate | intros _; eexists; reflexivity]].
    + unfold remover_personagem. rewrite Hgone.
      split; [reflexivity | split; [intros _; reflexivity | discriminate]].
    + destruct (parse_dados f_item_id dados) as [d|errs].
      * unfold adicionar_item_personagem. rewrite Hgone.
        split; [reflexivity | split; [intros _; reflexivity | discriminate]].
      * split; [reflexivity | split; [discriminate | intros _; eexists; reflexivity]].
    + unfold remover_item_do_personagem. rewrite Hgone.
      split; [reflexivity | split; [intros _; reflexivity | discriminate]].
  - intros q Hq. unfold buscar_personagem.
    assert (Eq : query_personagem q db' = query_personagem q db)
      by (rewrite Edb; unfold query_personagem; simpl;
          apply (find_key_filter_ne Personagem.id); exact Hq).
    rewrite Eq. destruct (query_personagem q db) as [x|] eqn:Ex; [| reflexivity].
    apply query_personagem_id in Ex. cbn [fst]. do 2 f_equal.
    unfold resposta_personagem, itens_de. rewrite Edb. cbn [itens_magicos].
    rewrite Ex, itens_de_remover by exact Hq. reflexivity.
Qed.

Lemma personagem_removido_witness :
  buscar_personagem 1 (snd (remover_personagem 1 Amostra.cada_um_com_seu_amuleto))
    = (inr NotFound_Character, snd (remover_personagem 1 Amostra.cada_um_com_seu_amuleto))
  /\ fst (handle Amostra.nomes 0 (POST_adicionar_item 1 (Some (Given 2)))
            (snd (remover_personagem 1 Amostra.cada_um_com_seu_amuleto)))
     = inr NotFound_Character
  /\ (exists errs,
        fst (handle Amostra.nomes 0 (PUT_nome_aventureiro 1 (Some Malformed))
               (snd (remover_personagem 1 Amostra.cada_um_com_seu_amuleto)))
        = inr (RequestValidationError errs))
  /\ fst (buscar_personagem 2 (snd (remover_personagem 1 Amostra.cada_um_com_seu_amuleto)))
     = fst (buscar_personagem 2 Amostra.cada_um_com_seu_amuleto).
Proof.
  pose proof (personagem_removido Amostra.cada_um_com_seu_amuleto 1 _ eq_refl) as H.
  cbv zeta in H. destruct H as (H1 & _ & _ & Hrota & Hq).
  split; [exact H1|]. split; [| split].
  - exact (proj1 (proj2 (Hrota Amostra.nomes 0 (POST_adicionar_item 1 (Some (Given 2)))
                           eq_refl)) eq_refl).
  - exact (proj2 (proj2 (Hrota Amostra.nomes 0 (PUT_nome_aventureiro 1 (Some Malformed))
                           eq_refl)) eq_refl).
  - apply Hq. discriminate.
Defined.

(** X17.  Renaming twice is renaming once with the last name: the state
    after both requests is the state after the second alone (in any state,
    whether the character exists or not). *)
Theorem renomear_duas_vezes (db : DB) (pid : Z) (n1 n2 : string) :
  snd (atualizar_nome_aventureiro pid (Some n2)
         (snd (atualizar_nome_aventureiro pid (Some n1) db)))
  = snd (atualizar_nome_aventureiro pid (Some n2) db).
Proof.
  unfold atualizar_nome_aventureiro at 2 3.
  destruct (query_personagem pid db) as [p|] eqn:Eqp;
    [| cbn [snd]; unfold atualizar_nome_aventureiro; rewrite Eqp; reflexivity].
  pose proof (query_personagem_id _ _ _ Eqp) as Ep. cbn [snd]. rewrite Ep.
  unfold atualizar_nome_aventureiro.
  assert (Eq1 : query_personagem pid
                  (update_personagem pid (Personagem.with_nome_aventureiro n1) db)
                = Some (Personagem.with_nome_aventureiro n1 p)).
  { unfold query_personagem, update_personagem. simpl.
    rewrite (find_key_map Personagem.id).
    2:{ intros r. destruct (Personagem.id r =? pid); reflexivity. }
    fold (query_personagem pid db). rewrite Eqp. simpl. rewrite Ep, Z.eqb_refl.
    reflexivity. }
  rewrite Eq1. cbn [snd Personagem.id Personagem.with_nome_aventureiro]. rewrite Ep.
  unfold update_personagem. simpl. f_equal.
  rewrite map_map. apply map_ext. intros r.
  destruct (Z.eqb_spec (Personagem.id r) pid) as [E|E]; simpl.
  - rewrite E, Z.eqb_refl. reflexivity.
  - apply Z.eqb_neq in E. rewrite E. reflexivity.
Qed.
